(** * Adaptive tutorial agent: environment, decision policies, experiment runner

    A shallow embedding of [src/rl_agent.py], [src/environment.py],
    [src/experiment_runner.py] and the configuration prompts of [main.py].

    Conventions of the embedding.
    - Python [float] values are exact rationals ([Q]); rounding is not
      modelled, except in the convergence test of the runner, whose
      outcome depends on it: there the two binary64 operations of the code
      are the interface [Binary64].  [numpy]'s [nan] (the mean of an empty
      sequence) is the extra value [NaN] of [npfloat].
    - Python [int] values are [Z]; a list index follows Python's rule
      (negative indices count from the end, anything else out of range
      raises [IndexError]).
    - [State] objects live in a heap and are passed around by reference,
      because the environment mutates its state object in place and hands
      the same object back to its caller.
    - Python exceptions are the [Raise] outcome of the [result] monad; the
      [while True] loop of an episode runs on fuel, [Timeout] being the
      outcome of a loop that has not finished when the fuel is spent.
    - The global [numpy] random stream is an explicit generator [G] of the
      class [RandomSource]. *)

From Stdlib Require Import QArith Qround Qabs Lqa Ascii.
From stdpp Require Import base option list strings pretty gmap.

(** ** Exceptions *)

Inductive exn := KeyError (k : string) | IndexError | ValueError.

Inductive result (A : Type) := Ok (a : A) | Raise (e : exn) | Timeout.
Arguments Ok {A} a.
Arguments Raise {A} e.
Arguments Timeout {A}.

#[export] Instance result_ret : MRet result := @Ok.
#[export] Instance result_bind : MBind result := λ A B f m,
  match m with Ok a => f a | Raise e => Raise e | Timeout => Timeout end.
#[export] Instance result_fmap : FMap result := λ A B f m,
  match m with Ok a => Ok (f a) | Raise e => Raise e | Timeout => Timeout end.

(** ** Numbers *)

Definition Qltb (x y : Q) : bool := negb (Qle_bool y x).

(** Python's [min(a, b)] and [max(a, b)]: the first argument wins a tie. *)
Definition py_min (a b : Q) : Q := if Qltb b a then b else a.
Definition py_max (a b : Q) : Q := if Qltb a b then b else a.

(** [np.clip(x, lo, hi)] is [minimum(maximum(x, lo), hi)]. *)
Definition np_clip (x lo hi : Q) : Q := py_min (py_max x lo) hi.

(** [int(x)] truncates towards zero. *)
Definition py_int (x : Q) : Z := Z.quot (Qnum x) (Z.pos (Qden x)).

Inductive npfloat := Fin (q : Q) | NaN.

Definition np_sub (x y : npfloat) : npfloat :=
  match x, y with Fin a, Fin b => Fin (a - b) | _, _ => NaN end.
Definition np_mul (x y : npfloat) : npfloat :=
  match x, y with Fin a, Fin b => Fin (a * b) | _, _ => NaN end.
Definition np_div (x y : npfloat) : npfloat :=
  match x, y with Fin a, Fin b => Fin (a / b) | _, _ => NaN end.
Definition np_abs (x : npfloat) : npfloat :=
  match x with Fin a => Fin (Qabs a) | NaN => NaN end.
(** Every comparison with [nan] is false, except [!=]. *)
Definition np_lt (x y : npfloat) : bool :=
  match x, y with Fin a, Fin b => Qltb a b | _, _ => false end.
Definition np_ne (x y : npfloat) : bool :=
  match x, y with Fin a, Fin b => negb (Qeq_bool a b) | _, _ => true end.

(** ** Sequences *)

Definition py_index (len : nat) (i : Z) : result nat :=
  if bool_decide (0 ≤ i < Z.of_nat len)%Z then Ok (Z.to_nat i)
  else if bool_decide (- Z.of_nat len ≤ i < 0)%Z then Ok (Z.to_nat (Z.of_nat len + i))
  else Raise IndexError.

Definition py_getitem {A} (l : list A) (i : Z) : result A :=
  n ← py_index (length l) i;
  match l !! n with Some x => Ok x | None => Raise IndexError end.

Definition py_setitem {A} (l : list A) (i : Z) (x : A) : result (list A) :=
  n ← py_index (length l) i;
  Ok (<[n := x]> l).

(** A slice bound: [None] is an omitted bound. *)
Definition py_bound (len : Z) (i : Z) : Z :=
  if (i <? 0)%Z then Z.max 0 (len + i) else Z.min len i.

Definition py_slice {A} (l : list A) (start stop : option Z) : list A :=
  let len := Z.of_nat (length l) in
  let s := from_option (py_bound len) 0%Z start in
  let e := from_option (py_bound len) len stop in
  take (Z.to_nat (e - s)) (drop (Z.to_nat s) l).

Definition py_sum (l : list Q) : Q := foldl Qplus 0%Q l.

Definition mean (l : list Q) : Q := (py_sum l / inject_Z (Z.of_nat (length l)))%Q.

(** [np.mean]: [nan] (and a warning) on an empty sequence. *)
Definition np_mean (l : list Q) : npfloat :=
  match l with [] => NaN | _ => Fin (mean l) end.

(** ** Binary64 arithmetic

    [_check_convergence] compares two means in binary64, and the rounding
    decides its outcome at the threshold: the means 0.7 and 0.2 differ by
    less than 0.5 once they are rounded.  The two operations it applies
    to floats are an interface: [np.mean] of a list of floats and the
    subtraction of two floats. *)
Class Binary64 := {
  np_mean64 : list Q → npfloat;
  sub64 : npfloat → npfloat → npfloat
}.

(** The exponent [e] with [2^e <= a < 2^(e+1)], for [a > 0]. *)
Definition floor_log2 (a : Q) : Z :=
  let e := (Z.log2 (Qnum a) - Z.log2 (Z.pos (Qden a)))%Z in
  if Qle_bool (2 ^ e) a then e else (e - 1)%Z.

Definition round_half_even (m : Q) : Z :=
  let f := Qfloor m in
  let r := (m - inject_Z f)%Q in
  if Qltb r (1 # 2) then f
  else if Qltb (1 # 2) r then (f + 1)%Z
  else if Z.even f then f else (f + 1)%Z.

(** The binary64 number nearest to a rational, ties to even: 53
    significant bits, exponents down to -1022 and subnormal numbers below.
    A magnitude that rounds to an infinity gives [NaN], which the test
    cannot tell from an infinity: its comparison is false for both. *)
Definition round64 (q : Q) : npfloat :=
  if Qeq_bool q 0 then Fin 0
  else
    let a := Qabs q in
    let e := Z.max (floor_log2 a) (-1022) in
    let quantum := (2 ^ (e - 52))%Q in
    let v := (inject_Z (round_half_even (a / quantum)) * quantum)%Q in
    if Qle_bool (2 ^ 1024) v then NaN
    else Fin (Qred (if Qltb q 0 then - v else v)).

(** The operations on lists whose sum is exact in binary64, as the sums of
    episode rewards are (multiples of 1/2 far below 2^53, in whatever
    order [numpy] adds them): the mean rounds once, in its division, and
    the subtraction rounds once. *)
#[export] Instance binary64 : Binary64 := {
  np_mean64 l := match l with [] => NaN | _ => round64 (mean l) end;
  sub64 x y := match x, y with Fin a, Fin b => round64 (a - b) | _, _ => NaN end
}.

(** The builtin [max] and [min], and [np.max]: [ValueError] on an empty
    sequence; the first extremal element is kept. *)
Definition py_max_list (l : list Q) : result Q :=
  match l with [] => Raise ValueError | x :: l' => Ok (foldl py_max x l') end.
Definition py_min_list (l : list Q) : result Q :=
  match l with [] => Raise ValueError | x :: l' => Ok (foldl py_min x l') end.
Definition np_max : list Q → result Q := py_max_list.

(** [np.where(v == x)[0]]: the indices holding [x]. *)
Fixpoint np_where_eq_from (i : Z) (x : Q) (v : list Q) : list Z :=
  match v with
  | [] => []
  | y :: v' =>
      if Qeq_bool y x then i :: np_where_eq_from (i + 1) x v'
      else np_where_eq_from (i + 1) x v'
  end.
Definition np_where_eq (v : list Q) (x : Q) : list Z := np_where_eq_from 0 x v.

(** [np.argmax]: the first index of the maximum. *)
Definition np_argmax (v : list Q) : result Z :=
  m ← np_max v;
  match np_where_eq v m with i :: _ => Ok i | [] => Raise ValueError end.

Definition np_zeros (n : nat) : list Q := replicate n 0%Q.
Definition np_ones (n : nat) : list Q := replicate n 1%Q.

(** ** The random stream *)

Class RandomSource (G : Type) := {
  (** [np.random.random()] *)
  np_random : G → Q * G;
  (** [np.random.randint(high)] for [high > 0] *)
  np_randint : Z → G → Z * G;
  (** [np.random.choice(a)] for a non-empty [a] *)
  np_choice : list Z → G → Z * G;
  (** [np.random.beta(a, b)] for two arrays of one shape *)
  np_beta : list Q → list Q → G → list Q * G
}.

(** What [numpy] guarantees about the values drawn. *)
Class RandomSourceLaws (G : Type) `{RandomSource G} : Prop := {
  randint_range : ∀ (high : Z) (g : G),
    (0 < high)%Z → (0 ≤ (np_randint high g).1 < high)%Z;
  choice_elem : ∀ (a : list Z) (g : G), a ≠ [] → (np_choice a g).1 ∈ a;
  beta_shape : ∀ (a b : list Q) (g : G), length (np_beta a b g).1 = length a
}.

(** A generator that replays a tape of uniform draws in [0, 1); a spent
    tape yields 0. *)
Definition tape := list Q.

Definition tape_next (g : tape) : Q * tape :=
  match g with [] => (0%Q, []) | u :: g' => (u, g') end.

Definition tape_randint (high : Z) (g : tape) : Z * tape :=
  let '(u, g') := tape_next g in
  ((Qfloor (u * inject_Z high) `mod` high)%Z, g').

Definition tape_choice (a : list Z) (g : tape) : Z * tape :=
  let '(i, g') := tape_randint (Z.of_nat (length a)) g in
  (default 0%Z (a !! Z.to_nat i), g').

Fixpoint tape_draws (n : nat) (g : tape) : list Q * tape :=
  match n with
  | 0 => ([], g)
  | S n' =>
      let '(u, g') := tape_next g in
      let '(us, g'') := tape_draws n' g' in
      (u :: us, g'')
  end.

#[export] Instance tape_source : RandomSource tape := {
  np_random := tape_next;
  np_randint := tape_randint;
  np_choice := tape_choice;
  np_beta a _ := tape_draws (length a)
}.

(** ** Learner state *)

Record State := mkState {
  performance : Q;
  streak : Z;
  questions_answered : Z;
  difficulty : Z
}.

#[export] Instance State_inhabited : Inhabited State :=
  populate (mkState 0.5 0 0 1).

(** [State.to_key] *)
Definition to_key (s : State) : string :=
  let perf_bucket := py_int (performance s * 10) in
  let streak_bucket := Z.min (streak s) 5 in
  pretty perf_bucket +:+ "_" +:+ pretty streak_bucket +:+ "_" +:+ pretty (difficulty s).

(** [State] objects are mutable and shared: a variable holds a reference
    into the heap. *)
Abbreviation loc := nat (only parsing).
Abbreviation heap := (list State) (only parsing).

Definition alloc (h : heap) (s : State) : heap * loc := (h ++ [s], length h).
Definition deref (h : heap) (l : loc) : State := h !!! l.
Definition store (h : heap) (l : loc) (s : State) : heap := <[l := s]> h.

(** ** [environment.py] *)

Module TutorialEnvironment.

Record profile_t := Profile {
  base_prob : Q;
  learn_rate : Q;
  fatigue_rate : Q
}.

Definition learner_profiles : gmap string profile_t :=
  list_to_map [
    ("fast", Profile 0.8 0.15 0.01);
    ("average", Profile 0.6 0.08 0.02);
    ("slow", Profile 0.4 0.04 0.03)
  ].

Definition difficulties : list string := ["Easy"; "Medium"; "Hard"; "Expert"].

(** The environment object: [self.profile], [self.state] (a reference)
    and [self.fatigue]. *)
Record t := Env {
  profile : profile_t;
  state : loc;
  fatigue : Q
}.

Record info_t := Info {
  success : bool;
  difficulty_label : string;
  performance_change : Q;
  success_probability : Q
}.

Definition reset_with (p : profile_t) (h : heap) : t * heap * loc :=
  let '(h', l) := alloc h (mkState 0.5 0 0 1) in
  (Env p l 0, h', l).

Definition reset (env : t) (h : heap) : t * heap * loc :=
  reset_with (profile env) h.

(** [TutorialEnvironment(learner_type)] *)
Definition __init__ (learner_type : string) (h : heap) : result (t * heap) :=
  match learner_profiles !! learner_type with
  | None => Raise (KeyError learner_type)
  | Some p => let '(env, h', _) := reset_with p h in Ok (env, h')
  end.

Definition difficulty_factors : list Q := [1.3; 1.0; 0.7; 0.5]%Q.

Definition _calculate_success_probability (env : t) (h : heap) (difficulty : Z)
  : result Q :=
  let st := deref h (state env) in
  let base_prob := (base_prob (profile env) * performance st)%Q in
  factor ← py_getitem difficulty_factors difficulty;
  let prob := (base_prob * factor)%Q in
  let prob := (prob * (1 - fatigue env))%Q in
  let streak_bonus := py_min 0.1 (inject_Z (streak st) * 0.02) in
  let prob := (prob + streak_bonus)%Q in
  Ok (np_clip prob 0.05 0.95).

Definition _calculate_reward (env : t) (h : heap) (difficulty : Z) (success : bool)
  : result Q :=
  let st := deref h (state env) in
  let reward :=
    if success then
      let reward := inject_Z ((difficulty + 1) * 2) in
      let reward := if bool_decide (3 < streak st)%Z then (reward + 1)%Q else reward in
      if bool_decide (5 < streak st)%Z then (reward + 1)%Q else reward
    else inject_Z (- (4 - difficulty)) in
  success_prob ← _calculate_success_probability env h difficulty;
  let reward :=
    if Qle_bool 0.4 success_prob && Qle_bool success_prob 0.7
    then (reward + 0.5)%Q else reward in
  let reward :=
    if Qltb 0.7 (performance st) && bool_decide (difficulty = 0%Z)
    then (reward - 1)%Q else reward in
  let reward :=
    if Qltb (performance st) 0.3 && bool_decide (difficulty = 3%Z)
    then (reward - 1)%Q else reward in
  Ok reward.

(** [step]: the state object is updated in place and the reference the
    environment holds is what the caller gets back. *)
Definition step `{RandomSource G} (env : t) (h : heap) (g : G) (action : Z)
  : result (t * heap * G * (loc * Q * bool * info_t)) :=
  success_prob ← _calculate_success_probability env h action;
  let '(u, g) := np_random g in
  let success := Qltb u success_prob in
  reward ← _calculate_reward env h action success;
  let st := deref h (state env) in
  let old_performance := performance st in
  let new_performance :=
    if success then py_min 1.0 (performance st + learn_rate (profile env))
    else py_max 0.0 (performance st - learn_rate (profile env) / 2) in
  let new_streak := if success then (streak st + 1)%Z else 0%Z in
  let new_fatigue := py_min 0.5 (fatigue env + fatigue_rate (profile env)) in
  let st' := mkState new_performance new_streak (questions_answered st + 1) action in
  let h' := store h (state env) st' in
  let env' := Env (profile env) (state env) new_fatigue in
  let done := bool_decide (20 ≤ questions_answered st')%Z in
  label ← py_getitem difficulties action;
  let info := Info success label (new_performance - old_performance) success_prob in
  Ok (env', h', g, (state env', reward, done, info)).

End TutorialEnvironment.

(** ** [rl_agent.py] *)

Module QLearningAgent.

Record t := Agent {
  action_space : nat;
  learning_rate : Q;
  discount_factor : Q;
  epsilon : Q;
  q_table : gmap string (list Q)
}.

Definition __init__ (action_space : nat) (learning_rate discount_factor epsilon : Q) : t :=
  Agent action_space learning_rate discount_factor epsilon ∅.

(** The default arguments of the constructor. *)
Definition default : t := __init__ 4 0.1 0.95 0.2.

Definition with_table (ag : t) (tbl : gmap string (list Q)) : t :=
  Agent (action_space ag) (learning_rate ag) (discount_factor ag) (epsilon ag) tbl.

(** [self.q_table[key]] on the [defaultdict]: a missing key is first
    bound to a fresh row of zeros. *)
Definition q_row (ag : t) (key : string) : list Q * t :=
  match q_table ag !! key with
  | Some row => (row, ag)
  | None =>
      let row := np_zeros (action_space ag) in
      (row, with_table ag (<[key := row]> (q_table ag)))
  end.

Definition select_action `{RandomSource G} (ag : t) (h : heap) (g : G) (state : loc)
  : result (Z * t * G) :=
  let '(u, g) := np_random g in
  if Qltb u (epsilon ag) then
    if bool_decide (action_space ag = 0) then Raise ValueError
    else
      let '(a, g) := np_randint (Z.of_nat (action_space ag)) g in
      Ok (a, ag, g)
  else
    let state_key := to_key (deref h state) in
    let '(q_values, ag) := q_row ag state_key in
    max_q ← np_max q_values;
    let best_actions := np_where_eq q_values max_q in
    let '(a, g) := np_choice best_actions g in
    Ok (a, ag, g).

Definition update (ag : t) (h : heap) (state : loc) (action : Z) (reward : Q)
    (next_state : loc) (done : bool) : result t :=
  let state_key := to_key (deref h state) in
  let next_state_key := to_key (deref h next_state) in
  let '(row, ag) := q_row ag state_key in
  current_q ← py_getitem row action;
  '(target, ag) ←
    (if done then Ok (reward, ag)
     else
       let '(next_row, ag) := q_row ag next_state_key in
       m ← np_max next_row;
       Ok ((reward + discount_factor ag * m)%Q, ag));
  let '(row, ag) := q_row ag state_key in
  q ← py_getitem row action;
  row' ← py_setitem row action (q + learning_rate ag * (target - current_q))%Q;
  Ok (with_table ag (<[state_key := row']> (q_table ag))).

Definition get_q_table_size (ag : t) : Z := Z.of_nat (size (q_table ag)).

End QLearningAgent.

Module ThompsonSamplingAgent.

Record t := Agent {
  action_space : nat;
  alpha : list Q;
  beta : list Q
}.

Definition __init__ (action_space : nat) : t :=
  Agent action_space (np_ones action_space) (np_ones action_space).

Definition default : t := __init__ 4.

Definition select_action `{RandomSource G} (ag : t) (g : G) : result (Z * G) :=
  let '(samples, g) := np_beta (alpha ag) (beta ag) g in
  a ← np_argmax samples;
  Ok (a, g).

Definition update (ag : t) (action : Z) (reward : Q) : result t :=
  if Qltb 0 reward then
    x ← py_getitem (alpha ag) action;
    alpha' ← py_setitem (alpha ag) action (x + 1)%Q;
    Ok (Agent (action_space ag) alpha' (beta ag))
  else
    x ← py_getitem (beta ag) action;
    beta' ← py_setitem (beta ag) action (x + 1)%Q;
    Ok (Agent (action_space ag) (alpha ag) beta').

Definition get_q_table_size (ag : t) : Z := 0.

End ThompsonSamplingAgent.

Module HybridAgent.

Record t := Agent {
  q_agent : QLearningAgent.t;
  thompson_agent : ThompsonSamplingAgent.t;
  exploration_rate : Q;
  action_space : nat
}.

Definition __init__ (action_space : nat) (exploration_rate : Q) : t :=
  Agent (QLearningAgent.__init__ action_space 0.1 0.95 0)
        (ThompsonSamplingAgent.__init__ action_space)
        exploration_rate action_space.

Definition default : t := __init__ 4 0.3.

Definition select_action `{RandomSource G} (ag : t) (h : heap) (g : G) (state : loc)
  : result (Z * t * G) :=
  let '(u, g) := np_random g in
  if Qltb u (exploration_rate ag) then
    '(a, g) ← ThompsonSamplingAgent.select_action (thompson_agent ag) g;
    Ok (a, ag, g)
  else
    '(a, q, g) ← QLearningAgent.select_action (q_agent ag) h g state;
    Ok (a, Agent q (thompson_agent ag) (exploration_rate ag) (action_space ag), g).

Definition update (ag : t) (h : heap) (state : loc) (action : Z) (reward : Q)
    (next_state : loc) (done : bool) : result t :=
  q ← QLearningAgent.update (q_agent ag) h state action reward next_state done;
  th ← ThompsonSamplingAgent.update (thompson_agent ag) action reward;
  Ok (Agent q th (exploration_rate ag) (action_space ag)).

Definition get_q_table_size (ag : t) : Z :=
  QLearningAgent.get_q_table_size (q_agent ag).

End HybridAgent.

(** ** [experiment_runner.py] *)

Module ExperimentRunner.

(** The three policies behind [self.agent]: the runner only calls
    [select_action], [update] and [get_q_table_size]. *)
Inductive agent_t :=
| QLearning (a : QLearningAgent.t)
| Thompson (a : ThompsonSamplingAgent.t)
| Hybrid (a : HybridAgent.t).

Definition select_action `{RandomSource G} (ag : agent_t) (h : heap) (g : G) (state : loc)
  : result (Z * agent_t * G) :=
  match ag with
  | QLearning a =>
      '(x, a, g) ← QLearningAgent.select_action a h g state; Ok (x, QLearning a, g)
  | Thompson a =>
      '(x, g) ← ThompsonSamplingAgent.select_action a g; Ok (x, Thompson a, g)
  | Hybrid a =>
      '(x, a, g) ← HybridAgent.select_action a h g state; Ok (x, Hybrid a, g)
  end.

Definition update (ag : agent_t) (h : heap) (state : loc) (action : Z) (reward : Q)
    (next_state : loc) (done : bool) : result agent_t :=
  match ag with
  | QLearning a =>
      QLearning <$> QLearningAgent.update a h state action reward next_state done
  | Thompson a => Thompson <$> ThompsonSamplingAgent.update a action reward
  | Hybrid a => Hybrid <$> HybridAgent.update a h state action reward next_state done
  end.

Definition get_q_table_size (ag : agent_t) : Z :=
  match ag with
  | QLearning a => QLearningAgent.get_q_table_size a
  | Thompson a => ThompsonSamplingAgent.get_q_table_size a
  | Hybrid a => HybridAgent.get_q_table_size a
  end.

Record metrics_t := Metrics {
  episode_rewards : list Q;
  success_rates : list Q;
  action_distribution : list Q;
  performance_history : list Q;
  difficulty_history : list (list Z);
  convergence_episode : option Z;
  q_table_sizes : list Z
}.

Record t := Runner {
  agent_type : string;
  env : TutorialEnvironment.t;
  agent : agent_t;
  metrics : metrics_t
}.

Definition __init__ (agent_type env_type : string) (h : heap) : result (t * heap) :=
  '(env, h) ← TutorialEnvironment.__init__ env_type h;
  let agent :=
    if bool_decide (agent_type = "qlearning") then QLearning QLearningAgent.default
    else if bool_decide (agent_type = "thompson") then Thompson ThompsonSamplingAgent.default
    else Hybrid HybridAgent.default in
  Ok (Runner agent_type env agent (Metrics [] [] (np_zeros 4) [] [] None []), h).

(** One call of [self.agent.update], as the runner issues it: the heap at
    the time of the call and the arguments. *)
Record update_call := UpdateCall {
  call_heap : heap;
  call_state : loc;
  call_action : Z;
  call_reward : Q;
  call_next_state : loc;
  call_done : bool
}.

(** The local variables of [run_episode]. *)
Record locals := Locals {
  state : loc;
  episode_reward : Q;
  successes : Z;
  actions_taken : list Z
}.

(** The body of the [while True] loop, up to and including
    [state = next_state]; the boolean is [done]. *)
Definition loop_body `{RandomSource G} (r : t) (h : heap) (g : G) (v : locals)
  : result (t * heap * G * locals * update_call * bool) :=
  '(action, ag, g) ← select_action (agent r) h g (state v);
  '(env, h, g, (next_state, reward, done, info)) ←
    TutorialEnvironment.step (env r) h g action;
  let call := UpdateCall h (state v) action reward next_state done in
  ag ← update ag h (state v) action reward next_state done;
  let episode_reward := (episode_reward v + reward)%Q in
  let successes :=
    if TutorialEnvironment.success info then (successes v + 1)%Z else successes v in
  let actions_taken := actions_taken v ++ [action] in
  let m := metrics r in
  x ← py_getitem (action_distribution m) action;
  dist ← py_setitem (action_distribution m) action (x + 1)%Q;
  let m := Metrics (episode_rewards m) (success_rates m) dist (performance_history m)
                   (difficulty_history m) (convergence_episode m) (q_table_sizes m) in
  Ok (Runner (agent_type r) env ag m, h, g,
      Locals next_state episode_reward successes actions_taken, call, done).

Fixpoint loop `{RandomSource G} (fuel : nat) (r : t) (h : heap) (g : G) (v : locals)
    (calls : list update_call) : result (t * heap * G * locals * list update_call) :=
  match fuel with
  | 0 => Timeout
  | S fuel =>
      '(r, h, g, v, call, done) ← loop_body r h g v;
      if done : bool then Ok (r, h, g, v, calls ++ [call])
      else loop fuel r h g v (calls ++ [call])
  end.

(** [run_episode], together with the calls of [update] it issued. *)
Definition run_episode_calls `{RandomSource G} (fuel : nat) (r : t) (h : heap) (g : G)
    (episode_num : Z) : result (t * heap * G * Q * list update_call) :=
  let '(env0, h, state0) := TutorialEnvironment.reset (env r) h in
  let r := Runner (agent_type r) env0 (agent r) (metrics r) in
  '(r, h, g, v, calls) ← loop fuel r h g (Locals state0 0 0 []) [];
  let success_rate :=
    match actions_taken v with
    | [] => 0%Q
    | _ => (inject_Z (successes v) / inject_Z (Z.of_nat (length (actions_taken v))))%Q
    end in
  let m := metrics r in
  let m := Metrics (episode_rewards m)
                   (success_rates m ++ [success_rate])
                   (action_distribution m)
                   (performance_history m ++ [performance (deref h (state v))])
                   (difficulty_history m ++ [actions_taken v])
                   (convergence_episode m)
                   (q_table_sizes m ++ [get_q_table_size (agent r)]) in
  Ok (Runner (agent_type r) (env r) (agent r) m, h, g, episode_reward v, calls).

Definition run_episode `{RandomSource G} (fuel : nat) (r : t) (h : heap) (g : G)
    (episode_num : Z) : result (t * heap * G * Q) :=
  '(r, h, g, reward, _) ← run_episode_calls fuel r h g episode_num;
  Ok (r, h, g, reward).

Section Convergence.

Context `{Binary64}.

(** The means, their difference and the comparison are binary64. *)
Definition _check_convergence (r : t) (window : Z) (threshold : Q) : bool :=
  let rewards := episode_rewards (metrics r) in
  if bool_decide (Z.of_nat (length rewards) < window * 2)%Z then false
  else
    let recent := py_slice rewards (Some (- window)%Z) None in
    let previous := py_slice rewards (Some (- window * 2)%Z) (Some (- window)%Z) in
    let recent_mean := np_mean64 recent in
    let previous_mean := np_mean64 previous in
    np_lt (np_abs (sub64 recent_mean previous_mean)) (Fin threshold).

(** The body of [for episode in range(n_episodes)]; the progress line
    printed every tenth episode is output only and is left out. *)
Definition experiment_body `{RandomSource G} (fuel : nat) (r : t) (h : heap) (g : G)
    (episode : Z) : result (t * heap * G) :=
  '(r, h, g, reward) ← run_episode fuel r h g episode;
  let m := metrics r in
  let m := Metrics (episode_rewards m ++ [reward]) (success_rates m)
                   (action_distribution m) (performance_history m)
                   (difficulty_history m) (convergence_episode m) (q_table_sizes m) in
  let r := Runner (agent_type r) (env r) (agent r) m in
  let r :=
    if _check_convergence r 10 0.5 && bool_decide (convergence_episode m = None)
    then Runner (agent_type r) (env r) (agent r)
           (Metrics (episode_rewards m) (success_rates m) (action_distribution m)
                    (performance_history m) (difficulty_history m) (Some episode)
                    (q_table_sizes m))
    else r in
  Ok (r, h, g).

(** [count] more episodes, the next one being number [episode]. *)
Fixpoint experiment_loop `{RandomSource G} (fuel : nat) (count : nat) (episode : Z)
    (r : t) (h : heap) (g : G) : result (t * heap * G) :=
  match count with
  | 0 => Ok (r, h, g)
  | S count =>
      '(r, h, g) ← experiment_body fuel r h g episode;
      experiment_loop fuel count (episode + 1) r h g
  end.

End Convergence.

Record report_t := Report {
  report_agent_type : string;
  total_episodes : Z;
  execution_time : Q;
  total_reward : Q;
  avg_reward : npfloat;
  std_reward : npfloat;
  max_reward : Q;
  min_reward : Q;
  final_10_avg_reward : npfloat;
  final_success_rate : npfloat;
  overall_success_rate : npfloat;
  report_convergence_episode : option Z;
  report_action_distribution : list Q;
  final_performance : Q;
  final_q_table_size : Z;
  improvement : npfloat
}.

Section Report.

(** The square root of [numpy], behind [np.std]. *)
Variable np_sqrt : Q → Q.
Context `{Binary64}.

Definition np_std (l : list Q) : npfloat :=
  match l with
  | [] => NaN
  | _ => let m := mean l in
         Fin (np_sqrt (mean ((λ x, Qabs (x - m) * Qabs (x - m))%Q <$> l)))
  end.

Definition _generate_report (r : t) (execution_time : Q) : result report_t :=
  let rewards := episode_rewards (metrics r) in
  let success_rates := success_rates (metrics r) in
  let total_episodes := Z.of_nat (length rewards) in
  let total_reward := py_sum rewards in
  let avg_reward := np_mean rewards in
  let std_reward := np_std rewards in
  max_reward ← py_max_list rewards;
  min_reward ← py_min_list rewards;
  let final_10_avg_reward :=
    if bool_decide (10 ≤ length rewards)
    then np_mean (py_slice rewards (Some (-10)%Z) None) else np_mean rewards in
  let final_success_rate :=
    if bool_decide (10 ≤ length success_rates)
    then np_mean (py_slice success_rates (Some (-10)%Z) None)
    else np_mean success_rates in
  let overall_success_rate := np_mean success_rates in
  final_performance ←
    match performance_history (metrics r) with
    | [] => Ok 0%Q
    | l => py_getitem l (-1)
    end;
  final_q_table_size ←
    match q_table_sizes (metrics r) with
    | [] => Ok 0%Z
    | l => py_getitem l (-1)
    end;
  let improvement :=
    if bool_decide (20 ≤ length rewards) then
      let initial_avg := np_mean (py_slice rewards None (Some 10%Z)) in
      let final_avg := np_mean (py_slice rewards (Some (-10)%Z) None) in
      if np_ne initial_avg (Fin 0)
      then np_mul (np_div (np_sub final_avg initial_avg) (np_abs initial_avg)) (Fin 100)
      else Fin 0
    else Fin 0 in
  Ok (Report (agent_type r) total_episodes execution_time total_reward avg_reward
             std_reward max_reward min_reward final_10_avg_reward final_success_rate
             overall_success_rate (convergence_episode (metrics r))
             (action_distribution (metrics r)) final_performance final_q_table_size
             improvement).

(** [run_experiment]; [execution_time] is the difference of the two
    readings of the clock. *)
Definition run_experiment `{RandomSource G} (fuel : nat) (r : t) (h : heap) (g : G)
    (n_episodes : Z) (execution_time : Q) : result (t * heap * G * report_t) :=
  '(r, h, g) ← experiment_loop fuel (Z.to_nat n_episodes) 0 r h g;
  report ← _generate_report r execution_time;
  Ok (r, h, g, report).

End Report.

End ExperimentRunner.


(** ** [main.py]: reading the configuration

    Standard input is the list of the lines still to be read; reading past
    its end is [EndOfInput] (Python's [EOFError]).  What is printed is left
    out.  [int] is Python's conversion of a line to an integer, [None]
    standing for its [ValueError]. *)

Module Main.

Inductive outcome (A : Type) :=
| Answered (a : A) (rest : list string)
| EndOfInput
| Raised (e : exn).
Arguments Answered {A} a rest.
Arguments EndOfInput {A}.
Arguments Raised {A} e.

Section Main.
Variable int : string → option Z.

(** [get_user_choice]: asks until a line is a number between 1 and the
    number of options. *)
Fixpoint get_user_choice (options : list string) (stdin : list string) : outcome Z :=
  match stdin with
  | [] => EndOfInput
  | line :: rest =>
      match int line with
      | Some choice =>
          if bool_decide (1 ≤ choice ≤ Z.of_nat (length options))%Z
          then Answered (choice - 1)%Z rest
          else get_user_choice options rest
      | None => get_user_choice options rest
      end
  end.

(** The loop of [main] that asks for the number of episodes. *)
Fixpoint ask_n_episodes (stdin : list string) : outcome Z :=
  match stdin with
  | [] => EndOfInput
  | line :: rest =>
      match int line with
      | Some n_episodes =>
          if bool_decide (10 ≤ n_episodes ≤ 500)%Z
          then Answered n_episodes rest
          else ask_n_episodes rest
      | None => ask_n_episodes rest
      end
  end.

Definition algorithms : list string :=
  ["Q-Learning"; "Thompson Sampling"; "Hybrid (Q-Learning + Thompson)"].
Definition algo_map : list string := ["qlearning"; "thompson"; "hybrid"].
Definition profiles : list string := ["Fast Learner"; "Average Learner"; "Slow Learner"].
Definition profile_map : list string := ["fast"; "average"; "slow"].

(** [main] up to the construction of the runner: the three questions and
    the line that starts the experiment.  An index into [algo_map] or
    [profile_map] can only return or raise; the [Timeout] branches are
    there for the match to be complete. *)
Definition configuration (stdin : list string) : outcome (string * string * Z) :=
  match get_user_choice algorithms stdin with
  | Answered algo_choice stdin =>
      match py_getitem algo_map algo_choice with
      | Ok algorithm =>
          match get_user_choice profiles stdin with
          | Answered profile_choice stdin =>
              match py_getitem profile_map profile_choice with
              | Ok profile =>
                  match ask_n_episodes stdin with
                  | Answered n_episodes stdin =>
                      match stdin with
                      | [] => EndOfInput
                      | _ :: stdin => Answered (algorithm, profile, n_episodes) stdin
                      end
                  | EndOfInput => EndOfInput
                  | Raised e => Raised e
                  end
              | Raise e => Raised e
              | Timeout => EndOfInput
              end
          | EndOfInput => EndOfInput
          | Raised e => Raised e
          end
      | Raise e => Raised e
      | Timeout => EndOfInput
      end
  | EndOfInput => EndOfInput
  | Raised e => Raised e
  end.

End Main.

End Main.

(** ** Notions used to state the properties *)

(** The three adjustments that [_calculate_reward] adds to the base reward:
    the bonus for an optimal challenge and the two penalties. *)
Definition reward_adjustment (st : State) (success_prob : Q) (action : Z) : Q :=
  ((if Qle_bool 0.4 success_prob && Qle_bool success_prob 0.7 then 0.5 else 0)
   + (if Qltb 0.7 (performance st) && bool_decide (action = 0%Z) then - (1) else 0)
   + (if Qltb (performance st) 0.3 && bool_decide (action = 3%Z) then - (1) else 0))%Q.

(** The base reward for a streak [s]: what [_calculate_reward] computes
    before the adjustments when [self.state.streak] is [s]. *)
Definition reward_base (s : Z) (action : Z) (success : bool) : Q :=
  if success then
    (inject_Z ((action + 1) * 2)
     + (if bool_decide (3 < s)%Z then 1 else 0)
     + (if bool_decide (5 < s)%Z then 1 else 0))%Q
  else inject_Z (- (4 - action)).


(** The row that [self.q_table[key]] yields: the stored one, or the zeros a
    missing key is bound to. *)
Definition q_values (ag : QLearningAgent.t) (key : string) : list Q :=
  default (np_zeros (QLearningAgent.action_space ag)) (QLearningAgent.q_table ag !! key).

(** Every stored row has one value per action. *)
Definition q_table_wf (ag : QLearningAgent.t) : Prop :=
  map_Forall (λ _ row, length row = QLearningAgent.action_space ag)
             (QLearningAgent.q_table ag).


(** A call of the value-table policy, with the heap at the time of the
    call. *)
Inductive call :=
| Select (h : heap) (state : loc)
| Update (h : heap) (state : loc) (action : Z) (reward : Q) (next_state : loc)
         (done : bool).

Definition exec_call `{RandomSource G} (ag : QLearningAgent.t) (g : G) (c : call)
  : result (QLearningAgent.t * G) :=
  match c with
  | Select h state =>
      '(_, ag, g) ← QLearningAgent.select_action ag h g state; Ok (ag, g)
  | Update h state action reward next_state done =>
      ag ← QLearningAgent.update ag h state action reward next_state done; Ok (ag, g)
  end.

Fixpoint exec_calls `{RandomSource G} (ag : QLearningAgent.t) (g : G) (cs : list call)
  : result (QLearningAgent.t * G) :=
  match cs with
  | [] => Ok (ag, g)
  | c :: cs => '(ag, g) ← exec_call ag g c; exec_calls ag g cs
  end.

(** The discretized keys of the states passed to a call. *)
Definition keys_passed (c : call) : gset string :=
  match c with
  | Select h state => {[ to_key (deref h state) ]}
  | Update h state _ _ next_state _ =>
      {[ to_key (deref h state) ]} ∪ {[ to_key (deref h next_state) ]}
  end.

Definition all_keys_passed (cs : list call) : gset string := ⋃ (keys_passed <$> cs).

(** The keys a call looks up in the table: [select_action] looks its key
    up only when it does not explore, [update] looks up the key of
    [next_state] only when the transition is not terminal. *)
Definition keys_looked_up `{RandomSource G} (ag : QLearningAgent.t) (g : G) (c : call)
  : gset string :=
  match c with
  | Select h state =>
      if Qltb (np_random g).1 (QLearningAgent.epsilon ag) then ∅
      else {[ to_key (deref h state) ]}
  | Update h state _ _ next_state done =>
      {[ to_key (deref h state) ]}
      ∪ (if done then ∅ else {[ to_key (deref h next_state) ]})
  end.

Fixpoint all_keys_looked_up `{RandomSource G} (ag : QLearningAgent.t) (g : G)
    (cs : list call) : gset string :=
  match cs with
  | [] => ∅
  | c :: cs =>
      keys_looked_up ag g c
      ∪ match exec_call ag g c with
        | Ok (ag', g') => all_keys_looked_up ag' g' cs
        | _ => ∅
        end
  end.

(** An update names one of the policy's actions. *)
Definition valid_call (ag : QLearningAgent.t) (c : call) : Prop :=
  match c with
  | Select _ _ => True
  | Update _ _ action _ _ _ =>
      (0 ≤ action < Z.of_nat (QLearningAgent.action_space ag))%Z
  end.


(** The shape of the tables of a policy built with four actions. *)
Definition thompson_ok (a : ThompsonSamplingAgent.t) : Prop :=
  length (ThompsonSamplingAgent.alpha a) = 4 ∧ length (ThompsonSamplingAgent.beta a) = 4.

Definition qlearning_ok (a : QLearningAgent.t) : Prop :=
  q_table_wf a ∧ QLearningAgent.action_space a = 4.

Definition agent_ok (ag : ExperimentRunner.agent_t) : Prop :=
  match ag with
  | ExperimentRunner.QLearning a => qlearning_ok a
  | ExperimentRunner.Thompson a => thompson_ok a
  | ExperimentRunner.Hybrid a =>
      qlearning_ok (HybridAgent.q_agent a) ∧ thompson_ok (HybridAgent.thompson_agent a)
  end.

(** A runner whose policy has four actions, whose action histogram has
    four bins and whose environment holds a live state object. *)
Definition runner_ok (r : ExperimentRunner.t) (h : heap) : Prop :=
  agent_ok (ExperimentRunner.agent r)
  ∧ length (ExperimentRunner.action_distribution (ExperimentRunner.metrics r)) = 4
  ∧ TutorialEnvironment.state (ExperimentRunner.env r) < length h.


(** The convergence test on a sequence of episode rewards: at least 20
    of them, and the means of the last 10 and of the 10 before, computed
    and subtracted in binary64, differ by less than 0.5. *)
Definition converged_on `{Binary64} (rewards : list Q) : Prop :=
  20 ≤ length rewards
  ∧ np_lt (np_abs (sub64 (np_mean64 (drop (length rewards - 10) rewards))
                         (np_mean64 (take 10 (drop (length rewards - 20) rewards)))))
          (Fin 0.5) = true.


(** A string without the separator of the keys. *)
Fixpoint underscore_free (s : string) : Prop :=
  match s with
  | EmptyString => True
  | String c s' => c ≠ "_"%char ∧ underscore_free s'
  end.


(** * Properties *)

(** ** The [result] monad, numbers and sequences *)

Lemma bind_Ok {A B} (m : result A) (f : A → result B) (b : B) :
  m ≫= f = Ok b → ∃ a, m = Ok a ∧ f a = Ok b.
Proof. destruct m as [a| |]; simpl; intros E; [eauto | discriminate..]. Qed.

Lemma fmap_Ok {A B} (m : result A) (f : A → B) (b : B) :
  f <$> m = Ok b → ∃ a, m = Ok a ∧ b = f a.
Proof. destruct m as [a| |]; simpl; intros E; [injection E as <-; eauto | discriminate..]. Qed.

(** Inverts every hypothesis saying that a sequence of calls returned. *)
Ltac inv_Ok :=
  repeat match goal with
  | H : Ok _ = Ok _ |- _ => injection H as H; try subst
  | H : Raise _ = Ok _ |- _ => discriminate H
  | H : Timeout = Ok _ |- _ => discriminate H
  | H : _ ≫= _ = Ok _ |- _ =>
      let a := fresh "a" in let E := fresh "E" in
      apply bind_Ok in H as (a & E & H)
  | H : _ <$> _ = Ok _ |- _ =>
      let a := fresh "a" in let E := fresh "E" in
      apply fmap_Ok in H as (a & E & H)
  end.

Lemma Qltb_lt (x y : Q) : Qltb x y = true ↔ (x < y)%Q.
Proof.
  unfold Qltb. rewrite negb_true_iff. split.
  - intros E. apply Qnot_le_lt. intros L. apply Qle_bool_iff in L. congruence.
  - intros L. destruct (Qle_bool y x) eqn:E; [|done].
    apply Qle_bool_iff in E. exfalso. revert E. by apply Qlt_not_le.
Qed.

Lemma Qltb_ge (x y : Q) : Qltb x y = false ↔ (y <= x)%Q.
Proof.
  unfold Qltb. rewrite negb_false_iff. apply Qle_bool_iff.
Qed.

Lemma py_min_spec (a b : Q) :
  (py_min a b <= a)%Q ∧ (py_min a b <= b)%Q ∧ (py_min a b = a ∨ py_min a b = b).
Proof.
  unfold py_min. destruct (Qltb b a) eqn:E.
  - apply Qltb_lt in E. repeat split; [lra | lra | by right].
  - apply Qltb_ge in E. repeat split; [lra | lra | by left].
Qed.

Lemma py_max_spec (a b : Q) :
  (a <= py_max a b)%Q ∧ (b <= py_max a b)%Q ∧ (py_max a b = a ∨ py_max a b = b).
Proof.
  unfold py_max. destruct (Qltb a b) eqn:E.
  - apply Qltb_lt in E. repeat split; [lra | lra | by right].
  - apply Qltb_ge in E. repeat split; [lra | lra | by left].
Qed.

Lemma np_clip_bounds (x lo hi : Q) :
  (lo <= hi)%Q → (lo <= np_clip x lo hi)%Q ∧ (np_clip x lo hi <= hi)%Q.
Proof.
  intros L. unfold np_clip.
  destruct (py_max_spec x lo) as (M1 & M2 & _).
  destruct (py_min_spec (py_max x lo) hi) as (m1 & m2 & [E | E]); rewrite E in *; lra.
Qed.

Lemma py_index_nonneg (len : nat) (i : Z) :
  (0 ≤ i < Z.of_nat len)%Z → py_index len i = Ok (Z.to_nat i).
Proof. intros L. unfold py_index. by rewrite bool_decide_eq_true_2. Qed.

Lemma py_index_lt (len : nat) (i : Z) (n : nat) : py_index len i = Ok n → n < len.
Proof.
  unfold py_index. repeat case_bool_decide; intros E; inv_Ok; lia.
Qed.

Lemma py_getitem_nonneg {A} (l : list A) (i : Z) :
  (0 ≤ i < Z.of_nat (length l))%Z →
  ∃ x, l !! Z.to_nat i = Some x ∧ py_getitem l i = Ok x.
Proof.
  intros L. unfold py_getitem. rewrite py_index_nonneg by done. simpl.
  destruct (lookup_lt_is_Some_2 l (Z.to_nat i)) as [x E]; [lia|].
  exists x. by rewrite E.
Qed.

Lemma py_getitem_nonneg_eq {A} (l : list A) (i : Z) (x : A) :
  l !! Z.to_nat i = Some x → (0 ≤ i)%Z → py_getitem l i = Ok x.
Proof.
  intros E L. apply lookup_lt_Some in E as Hlt.
  destruct (py_getitem_nonneg l i) as (y & E' & ->); [lia|]. congruence.
Qed.

Lemma py_setitem_nonneg {A} (l : list A) (i : Z) (x : A) :
  (0 ≤ i < Z.of_nat (length l))%Z → py_setitem l i x = Ok (<[Z.to_nat i := x]> l).
Proof. intros L. unfold py_setitem. by rewrite py_index_nonneg. Qed.

Lemma py_setitem_length {A} (l l' : list A) (i : Z) (x : A) :
  py_setitem l i x = Ok l' → length l' = length l.
Proof. unfold py_setitem. intros E. inv_Ok. apply length_insert. Qed.

(** ** The environment *)

Section Environment.
Import TutorialEnvironment.
Context `{RandomSource G}.

Lemma valid_action_cases (action : Z) :
  (0 ≤ action ≤ 3)%Z → action = 0%Z ∨ action = 1%Z ∨ action = 2%Z ∨ action = 3%Z.
Proof. lia. Qed.

Lemma success_probability_Ok (env : t) (h : heap) (action : Z) :
  (0 ≤ action ≤ 3)%Z →
  ∃ p, _calculate_success_probability env h action = Ok p
       ∧ (0.05 <= p)%Q ∧ (p <= 0.95)%Q.
Proof.
  intros L. unfold _calculate_success_probability.
  destruct (py_getitem_nonneg difficulty_factors action) as (f & _ & ->);
    [simpl; lia|].
  simpl. eexists. split; [done|]. apply np_clip_bounds. lra.
Qed.

(** C7: whatever the performance, streak and fatigue, the success
    probability of a difficulty level 0..3 lies between 0.05 and 0.95. *)
Theorem success_probability_clamped (env : t) (h : heap) (action : Z) :
  (0 <= performance (deref h (state env)))%Q →
  (performance (deref h (state env)) <= 1)%Q →
  (0 ≤ action ≤ 3)%Z →
  ∃ p, _calculate_success_probability env h action = Ok p
       ∧ (0.05 <= p)%Q ∧ (p <= 0.95)%Q.
Proof. intros _ _. apply success_probability_Ok. Qed.

Lemma calculate_reward_Ok (env : t) (h : heap) (action : Z) (success : bool) :
  (0 ≤ action ≤ 3)%Z →
  ∃ p reward,
    _calculate_success_probability env h action = Ok p
    ∧ _calculate_reward env h action success = Ok reward
    ∧ (reward == reward_base (streak (deref h (state env))) action success
                 + reward_adjustment (deref h (state env)) p action)%Q.
Proof.
  intros L. destruct (success_probability_Ok env h action L) as (p & E & _).
  exists p. unfold _calculate_reward. rewrite E. simpl.
  eexists. split; [done|]. split; [done|].
  unfold reward_adjustment, reward_base.
  repeat match goal with
  | |- context [if ?b then _ else _] => destruct b
  end; ring.
Qed.

(** C1 (as the code has it): the base reward of a successful step is
    (action+1)*2, plus 1 when the streak before the step exceeds 3 and plus
    1 more when it exceeds 5; the base of a failed step is -(4-action); the
    reward returned is the base plus the three adjustments.  The streak
    stored after the step is one more than the streak the bonus was
    computed from. *)
Theorem step_reward_uses_streak_before (env : t) (h : heap) (g : G) (action : Z) :
  (0 ≤ action ≤ 3)%Z →
  state env < length h →
  ∃ env' h' g' reward done info p,
    step env h g action = Ok (env', h', g', (state env, reward, done, info))
    ∧ _calculate_success_probability env h action = Ok p
    ∧ (reward == reward_base (streak (deref h (state env))) action (success info)
                 + reward_adjustment (deref h (state env)) p action)%Q
    ∧ streak (deref h' (state env)) =
        (if success info then streak (deref h (state env)) + 1 else 0)%Z.
Proof.
  intros L V. unfold step.
  destruct (success_probability_Ok env h action L) as (p & E & _).
  rewrite E. simpl. destruct (np_random g) as [u g'].
  destruct (calculate_reward_Ok env h action (Qltb u p) L) as (p' & r & E' & -> & R).
  assert (p' = p) as -> by congruence.
  destruct (py_getitem_nonneg difficulties action) as (lbl & _ & ->); [simpl; lia|].
  simpl. eexists _, _, _, _, _, _, p. split; [done|]. split; [done|].
  split; [exact R|].
  unfold deref, store. rewrite list_lookup_total_insert_eq by done. done.
Qed.

End Environment.

Lemma step_reward_uses_streak_before_witness :
  ∃ env' h' g' reward done info p,
    TutorialEnvironment.step (TutorialEnvironment.Env (TutorialEnvironment.Profile 0.4 0.04 0.03) 0 0)
        [mkState 0.5 3 3 0] ([] : tape) 1
      = Ok (env', h', g', (0, reward, done, info))
    ∧ TutorialEnvironment._calculate_success_probability
        (TutorialEnvironment.Env (TutorialEnvironment.Profile 0.4 0.04 0.03) 0 0)
        [mkState 0.5 3 3 0] 1 = Ok p
    ∧ (reward == reward_base 3 1 (TutorialEnvironment.success info)
                 + reward_adjustment (mkState 0.5 3 3 0) p 1)%Q
    ∧ streak (deref h' 0) = (if TutorialEnvironment.success info then 3 + 1 else 0)%Z.
Proof.
  apply (step_reward_uses_streak_before (G := tape)
           (TutorialEnvironment.Env (TutorialEnvironment.Profile 0.4 0.04 0.03) 0 0)
           [mkState 0.5 3 3 0] [] 1); simpl; lia.
Defined.

Lemma success_probability_clamped_witness :
  ∃ p, TutorialEnvironment._calculate_success_probability
         (TutorialEnvironment.Env (TutorialEnvironment.Profile 0.6 0.08 0.02) 0 0.1)
         [mkState 0.5 2 7 1] 2 = Ok p
       ∧ (0.05 <= p)%Q ∧ (p <= 0.95)%Q.
Proof.
  apply success_probability_clamped; [unfold Qle; simpl; lia.. | lia].
Defined.

(** C1 (as the claim has it) fails: from a fresh "slow" learner, three
    successful Easy questions bring the streak to 3; a fourth success, on a
    Medium question, leaves the streak at 4 (> 3) after the update, yet the
    reward returned is 4, not (1+1)*2 + 1 = 5.  No adjustment applies at
    that step. *)
Lemma step_reward_post_streak_counterexample :
  ∃ env3 h3 g3 x env h g reward info,
    ('(env0, h0) ← TutorialEnvironment.__init__ "slow" [];
     '(env1, h1, g1, _) ← TutorialEnvironment.step env0 h0 ([] : tape) 0;
     '(env2, h2, g2, _) ← TutorialEnvironment.step env1 h1 g1 0;
     TutorialEnvironment.step env2 h2 g2 0) = Ok (env3, h3, g3, x)
    ∧ TutorialEnvironment.step env3 h3 g3 1 = Ok (env, h, g, (0, reward, false, info))
    ∧ TutorialEnvironment.success info = true
    ∧ streak (deref h3 0) = 3%Z
    ∧ streak (deref h 0) = 4%Z
    ∧ reward_adjustment (deref h3 0) (TutorialEnvironment.success_probability info) 1 = 0%Q
    ∧ (reward == 4)%Q
    ∧ ¬ (reward == reward_base (streak (deref h 0)) 1 true)%Q.
Proof.
  eexists _, _, _, _, _, _, _, _, _. split; [vm_compute; reflexivity|].
  split; [vm_compute; reflexivity|].
  repeat split; [vm_compute; congruence].
Qed.

(** ** The sampling policy *)

(** C9: an update with a valid action adds exactly 1 to that action's
    success weight when the reward is positive, and exactly 1 to its failure
    weight otherwise (a zero reward included); no other counter changes. *)
Theorem thompson_update_counts (ag : ThompsonSamplingAgent.t) (action : Z) (reward : Q) :
  (0 ≤ action < Z.of_nat (length (ThompsonSamplingAgent.alpha ag)))%Z →
  (action < Z.of_nat (length (ThompsonSamplingAgent.beta ag)))%Z →
  ∃ ag',
    ThompsonSamplingAgent.update ag action reward = Ok ag'
    ∧ ((0 < reward)%Q →
        (∃ x, ThompsonSamplingAgent.alpha ag !! Z.to_nat action = Some x
              ∧ ThompsonSamplingAgent.alpha ag' !! Z.to_nat action = Some (x + 1)%Q)
        ∧ (∀ j, j ≠ Z.to_nat action →
             ThompsonSamplingAgent.alpha ag' !! j = ThompsonSamplingAgent.alpha ag !! j)
        ∧ ThompsonSamplingAgent.beta ag' = ThompsonSamplingAgent.beta ag)
    ∧ ((reward <= 0)%Q →
        (∃ x, ThompsonSamplingAgent.beta ag !! Z.to_nat action = Some x
              ∧ ThompsonSamplingAgent.beta ag' !! Z.to_nat action = Some (x + 1)%Q)
        ∧ (∀ j, j ≠ Z.to_nat action →
             ThompsonSamplingAgent.beta ag' !! j = ThompsonSamplingAgent.beta ag !! j)
        ∧ ThompsonSamplingAgent.alpha ag' = ThompsonSamplingAgent.alpha ag).
Proof.
  intros La Lb. unfold ThompsonSamplingAgent.update.
  destruct (Qltb 0 reward) eqn:E.
  - apply Qltb_lt in E.
    destruct (py_getitem_nonneg (ThompsonSamplingAgent.alpha ag) action) as (x & Ex & ->);
      [lia|].
    simpl. rewrite py_setitem_nonneg by lia. simpl.
    eexists. split; [done|]. split; [|intros; lra].
    intros _. simpl. split; [|split; [|done]].
    + exists x. split; [done|]. apply list_lookup_insert_eq. lia.
    + intros j Hj. by apply list_lookup_insert_ne.
  - apply Qltb_ge in E.
    destruct (py_getitem_nonneg (ThompsonSamplingAgent.beta ag) action) as (x & Ex & ->);
      [lia|].
    simpl. rewrite py_setitem_nonneg by lia. simpl.
    eexists. split; [done|]. split; [intros; lra|].
    intros _. simpl. split; [|split; [|done]].
    + exists x. split; [done|]. apply list_lookup_insert_eq. lia.
    + intros j Hj. by apply list_lookup_insert_ne.
Qed.

Lemma thompson_update_counts_witness :
  ∃ ag',
    ThompsonSamplingAgent.update ThompsonSamplingAgent.default 2 0 = Ok ag'
    ∧ ((0 < 0)%Q →
        (∃ x, ThompsonSamplingAgent.alpha ThompsonSamplingAgent.default !! Z.to_nat 2 = Some x
              ∧ ThompsonSamplingAgent.alpha ag' !! Z.to_nat 2 = Some (x + 1)%Q)
        ∧ (∀ j, j ≠ Z.to_nat 2 →
             ThompsonSamplingAgent.alpha ag' !! j
             = ThompsonSamplingAgent.alpha ThompsonSamplingAgent.default !! j)
        ∧ ThompsonSamplingAgent.beta ag'
          = ThompsonSamplingAgent.beta ThompsonSamplingAgent.default)
    ∧ ((0 <= 0)%Q →
        (∃ x, ThompsonSamplingAgent.beta ThompsonSamplingAgent.default !! Z.to_nat 2 = Some x
              ∧ ThompsonSamplingAgent.beta ag' !! Z.to_nat 2 = Some (x + 1)%Q)
        ∧ (∀ j, j ≠ Z.to_nat 2 →
             ThompsonSamplingAgent.beta ag' !! j
             = ThompsonSamplingAgent.beta ThompsonSamplingAgent.default !! j)
        ∧ ThompsonSamplingAgent.alpha ag'
          = ThompsonSamplingAgent.alpha ThompsonSamplingAgent.default).
Proof.
  apply (thompson_update_counts ThompsonSamplingAgent.default 2 0); simpl; lia.
Defined.

(** ** The value-table policy *)

Section ValueTable.
Import QLearningAgent.

Lemma q_values_length (ag : t) (key : string) :
  q_table_wf ag → length (q_values ag key) = action_space ag.
Proof.
  intros W. unfold q_values. destruct (q_table ag !! key) as [row|] eqn:E; simpl.
  - by apply (W key row).
  - apply length_replicate.
Qed.

(** A lookup in the [defaultdict] binds the key to the row it yields and
    changes nothing else. *)
Lemma q_row_spec (ag : t) (key : string) :
  ∃ ag',
    q_row ag key = (q_values ag key, ag')
    ∧ q_table ag' = <[key := q_values ag key]> (q_table ag)
    ∧ action_space ag' = action_space ag
    ∧ learning_rate ag' = learning_rate ag
    ∧ discount_factor ag' = discount_factor ag
    ∧ epsilon ag' = epsilon ag.
Proof.
  unfold q_row, q_values. destruct (q_table ag !! key) as [row|] eqn:E; simpl.
  - exists ag. by rewrite insert_id.
  - by eexists.
Qed.

Lemma q_values_bind (ag ag' : t) (key k : string) :
  q_table ag' = <[key := q_values ag key]> (q_table ag) →
  action_space ag' = action_space ag →
  q_values ag' k = q_values ag k.
Proof.
  intros T S. unfold q_values at 1. rewrite T, S.
  destruct (decide (key = k)) as [->|N].
  - by rewrite lookup_insert_eq.
  - by rewrite lookup_insert_ne.
Qed.

Lemma q_table_wf_bind (ag ag' : t) (key : string) :
  q_table_wf ag →
  q_table ag' = <[key := q_values ag key]> (q_table ag) →
  action_space ag' = action_space ag →
  q_table_wf ag'.
Proof.
  intros W T S. unfold q_table_wf. rewrite T, S.
  apply map_Forall_insert_2; [by apply q_values_length | done].
Qed.

Lemma py_max_list_Ok (l : list Q) : l ≠ [] → ∃ m, py_max_list l = Ok m.
Proof. destruct l; [done|]. simpl. eauto. Qed.

(** What [update] does to the table, for a valid action. *)
Lemma update_spec (ag : t) (h : heap) (state : loc) (action : Z) (reward : Q)
    (next_state : loc) (done : bool) :
  q_table_wf ag →
  (0 ≤ action < Z.of_nat (action_space ag))%Z →
  ∃ ag' old target,
    update ag h state action reward next_state done = Ok ag'
    ∧ q_values ag (to_key (deref h state)) !! Z.to_nat action = Some old
    ∧ (if done then target = reward
       else ∃ m, np_max (q_values ag (to_key (deref h next_state))) = Ok m
                 ∧ target = (reward + discount_factor ag * m)%Q)
    ∧ q_values ag' (to_key (deref h state)) !! Z.to_nat action
      = Some (old + learning_rate ag * (target - old))%Q
    ∧ (∀ k j, (k, j) ≠ (to_key (deref h state), Z.to_nat action) →
         q_values ag' k !! j = q_values ag k !! j)
    ∧ dom (q_table ag')
      = dom (q_table ag) ∪ ({[ to_key (deref h state) ]}
          ∪ (if done then ∅ else {[ to_key (deref h next_state) ]}))
    ∧ q_table_wf ag'
    ∧ action_space ag' = action_space ag
    ∧ learning_rate ag' = learning_rate ag
    ∧ discount_factor ag' = discount_factor ag
    ∧ epsilon ag' = epsilon ag.
Proof.
  intros W La. unfold update.
  set (key := to_key (deref h state)). set (nkey := to_key (deref h next_state)).
  destruct (q_row_spec ag key) as (ag1 & -> & T1 & S1 & L1 & D1 & P1).
  pose proof (q_values_length ag key W) as Len.
  pose proof (q_table_wf_bind ag ag1 key W T1 S1) as W1.
  destruct (py_getitem_nonneg (q_values ag key) action) as (old & Eold & ->); [lia|].
  simpl.
  assert (∃ ag2 target,
    (if done then Ok (reward, ag1)
     else let '(next_row, ag0) := q_row ag1 nkey in
          np_max next_row ≫= λ m, Ok ((reward + discount_factor ag0 * m)%Q, ag0))
    = Ok (target, ag2)
    ∧ (if done then target = reward
       else ∃ m, np_max (q_values ag nkey) = Ok m
                 ∧ target = (reward + discount_factor ag * m)%Q)
    ∧ (∀ k, q_values ag2 k = q_values ag k)
    ∧ is_Some (q_table ag2 !! key)
    ∧ dom (q_table ag2)
      = dom (q_table ag) ∪ ({[ key ]} ∪ (if done then ∅ else {[ nkey ]}))
    ∧ q_table_wf ag2
    ∧ action_space ag2 = action_space ag
    ∧ learning_rate ag2 = learning_rate ag
    ∧ discount_factor ag2 = discount_factor ag
    ∧ epsilon ag2 = epsilon ag)
    as (ag2 & target & -> & Ht & V2 & I2 & Dm2 & W2 & S2 & L2 & D2 & P2).
  { destruct done.
    - exists ag1, reward. split; [done|]. split; [done|].
      split; [intros k; by eapply q_values_bind|].
      split; [rewrite T1, lookup_insert_eq; eauto|].
      split; [rewrite T1, dom_insert_L; set_solver | done].
    - destruct (q_row_spec ag1 nkey) as (ag2 & -> & T2 & S2 & L2 & D2 & P2).
      pose proof (q_table_wf_bind ag1 ag2 nkey W1 T2 S2) as W2.
      assert (q_values ag1 nkey = q_values ag nkey) as Env by by eapply q_values_bind.
      destruct (py_max_list_Ok (q_values ag nkey)) as (m & Em).
      { intros E. pose proof (q_values_length ag nkey W) as Ln.
        rewrite E in Ln. simpl in Ln. lia. }
      rewrite Env. unfold np_max. rewrite Em. simpl. eexists _, _. split; [done|].
      split; [exists m; split; [done|]; by rewrite D2, D1|].
      split.
      { intros k. transitivity (q_values ag1 k); by eapply q_values_bind. }
      split.
      { rewrite T2. destruct (decide (nkey = key)) as [->|N].
        + rewrite lookup_insert_eq. eauto.
        + rewrite lookup_insert_ne, T1, lookup_insert_eq by done. eauto. }
      split; [rewrite T2, T1, !dom_insert_L; set_solver|].
      split; [done|]. repeat split; congruence. }
  simpl. destruct (q_row_spec ag2 key) as (ag3 & -> & T3 & S3 & L3 & D3 & P3).
  pose proof (q_table_wf_bind ag2 ag3 key W2 T3 S3) as W3.
  rewrite V2. rewrite py_getitem_nonneg_eq with (x := old) by (done || lia).
  simpl. rewrite py_setitem_nonneg by lia. simpl.
  eexists _, old, target. split; [done|]. split; [done|]. split; [done|].
  split; [|split; [|split; [|split; [|repeat split; simpl; congruence]]]].
  - unfold q_values at 1. simpl. rewrite lookup_insert_eq. simpl.
    rewrite list_lookup_insert_eq by lia. by rewrite L3, L2.
  - intros k j N. unfold q_values at 1. simpl.
    destruct (decide (key = k)) as [<-|Nk].
    + rewrite lookup_insert_eq. simpl. rewrite list_lookup_insert_ne; [done|].
      congruence.
    + rewrite lookup_insert_ne by done. rewrite T3, lookup_insert_ne by done.
      rewrite S3. fold (q_values ag2 k). by rewrite V2.
  - simpl. rewrite dom_insert_L, T3, dom_insert_L, Dm2. set_solver.
  - unfold q_table_wf. simpl. apply map_Forall_insert_2; [|done].
    rewrite length_insert, S3, S2. done.
Qed.

(** C8: an update of a valid action replaces the stored value of (key of
    [state], action) by old + α (target - old), where the target is the
    reward for a terminal transition and reward + γ max (row of the key of
    [next_state]) otherwise; every other value of the table is as before. *)
Theorem q_update_rule (ag : t) (h : heap) (state : loc) (action : Z) (reward : Q)
    (next_state : loc) (done : bool) :
  q_table_wf ag →
  (0 ≤ action < Z.of_nat (action_space ag))%Z →
  ∃ ag' old target,
    update ag h state action reward next_state done = Ok ag'
    ∧ q_values ag (to_key (deref h state)) !! Z.to_nat action = Some old
    ∧ (if done then target = reward
       else ∃ m, np_max (q_values ag (to_key (deref h next_state))) = Ok m
                 ∧ target = (reward + discount_factor ag * m)%Q)
    ∧ q_values ag' (to_key (deref h state)) !! Z.to_nat action
      = Some (old + learning_rate ag * (target - old))%Q
    ∧ (∀ k j, (k, j) ≠ (to_key (deref h state), Z.to_nat action) →
         q_values ag' k !! j = q_values ag k !! j).
Proof.
  intros W La.
  destruct (update_spec ag h state action reward next_state done W La)
    as (ag' & old & target & E & Eo & Et & En & Ef & _).
  by exists ag', old, target.
Qed.

(** What [select_action] does to the table: nothing when it explores, a
    lookup of the state's key otherwise. *)
Lemma select_action_spec `{RandomSource G} (ag : t) (h : heap) (g : G) (state : loc) :
  q_table_wf ag →
  0 < action_space ag →
  ∃ a ag' g',
    select_action ag h g state = Ok (a, ag', g')
    ∧ (∀ k, q_values ag' k = q_values ag k)
    ∧ dom (q_table ag') = dom (q_table ag) ∪ keys_looked_up ag g (Select h state)
    ∧ q_table_wf ag'
    ∧ action_space ag' = action_space ag
    ∧ learning_rate ag' = learning_rate ag
    ∧ discount_factor ag' = discount_factor ag
    ∧ epsilon ag' = epsilon ag.
Proof.
  intros W Pos. unfold select_action, keys_looked_up.
  destruct (np_random g) as [u g1]. simpl.
  destruct (Qltb u (epsilon ag)).
  - rewrite bool_decide_eq_false_2 by lia.
    destruct (np_randint (Z.of_nat (action_space ag)) g1) as [a g2].
    exists a, ag, g2. split; [done|]. split; [done|].
    split; [set_solver | done].
  - destruct (q_row_spec ag (to_key (deref h state))) as (ag1 & -> & T1 & S1 & L1 & D1 & P1).
    destruct (py_max_list_Ok (q_values ag (to_key (deref h state)))) as (m & Em).
    { intros E. pose proof (q_values_length ag (to_key (deref h state)) W) as Ln.
      rewrite E in Ln. simpl in Ln. lia. }
    unfold np_max. rewrite Em. simpl.
    destruct (np_choice _ g1) as [a g2].
    exists a, ag1, g2. split; [done|].
    split; [intros k; by eapply q_values_bind|].
    split; [rewrite T1, dom_insert_L; set_solver|].
    split; [by eapply q_table_wf_bind | done].
Qed.

Lemma exec_call_spec `{RandomSource G} (ag : t) (g : G) (c : call) :
  q_table_wf ag →
  0 < action_space ag →
  valid_call ag c →
  ∃ ag' g',
    exec_call ag g c = Ok (ag', g')
    ∧ dom (q_table ag') = dom (q_table ag) ∪ keys_looked_up ag g c
    ∧ q_table_wf ag'
    ∧ action_space ag' = action_space ag.
Proof.
  intros W Pos V. destruct c as [h state | h state action reward next_state done].
  - destruct (select_action_spec ag h g state W Pos)
      as (a & ag' & g' & E & _ & Dm & W' & S' & _).
    exists ag', g'. unfold exec_call. rewrite E. done.
  - destruct (update_spec ag h state action reward next_state done W V)
      as (ag' & old & target & E & _ & _ & _ & _ & Dm & W' & S' & _).
    exists ag', g. unfold exec_call. rewrite E. done.
Qed.

Lemma exec_calls_spec `{RandomSource G} (cs : list call) (ag : t) (g : G) :
  q_table_wf ag →
  0 < action_space ag →
  Forall (valid_call ag) cs →
  ∃ ag' g',
    exec_calls ag g cs = Ok (ag', g')
    ∧ dom (q_table ag') = dom (q_table ag) ∪ all_keys_looked_up ag g cs
    ∧ q_table_wf ag'
    ∧ action_space ag' = action_space ag.
Proof.
  revert ag g. induction cs as [|c cs IH]; intros ag g W Pos V.
  - exists ag, g. simpl. split; [done|]. split; [set_solver | done].
  - apply Forall_cons in V as [Vc V].
    destruct (exec_call_spec ag g c W Pos Vc) as (ag1 & g1 & E1 & Dm1 & W1 & S1).
    destruct (IH ag1 g1) as (ag' & g' & E & Dm & W' & S'); [done | lia | |].
    { eapply Forall_impl; [exact V|]. intros [] ?; simpl in *; [done | lia]. }
    exists ag', g'. simpl. rewrite E1. simpl.
    split; [done|]. split; [rewrite Dm, Dm1; set_solver|]. split; [done | congruence].
Qed.

Lemma exec_calls_app `{RandomSource G} (cs1 cs2 : list call) (ag : t) (g : G) :
  exec_calls ag g (cs1 ++ cs2)
  = '(ag1, g1) ← exec_calls ag g cs1; exec_calls ag1 g1 cs2.
Proof.
  revert ag g. induction cs1 as [|c cs1 IH]; intros ag g; simpl; [done|].
  destruct (exec_call ag g c) as [[ag1 g1]| |]; simpl; [apply IH | done..].
Qed.

Lemma get_q_table_size_dom (ag : t) : get_q_table_size ag = Z.of_nat (size (dom (q_table ag))).
Proof. unfold get_q_table_size. by rewrite size_dom. Qed.

(** C4 (as the code has it): after any sequence of [select_action] and
    [update] calls with valid actions, the table holds exactly the keys it
    held before and the keys looked up since: the key of [state] in every
    [update], the key of [next_state] in every non-terminal [update], and
    the key of the state of every [select_action] that did not explore.
    From an empty table, [get_q_table_size] is the number of those keys,
    and it never decreases along the sequence. *)
Theorem table_size_counts_lookups `{RandomSource G} (ag : t) (g : G) (cs : list call) :
  q_table_wf ag →
  0 < action_space ag →
  Forall (valid_call ag) cs →
  ∃ ag' g',
    exec_calls ag g cs = Ok (ag', g')
    ∧ dom (q_table ag') = dom (q_table ag) ∪ all_keys_looked_up ag g cs
    ∧ (q_table ag = ∅ →
       get_q_table_size ag' = Z.of_nat (size (all_keys_looked_up ag g cs)))
    ∧ (∀ cs1 cs2, cs = cs1 ++ cs2 →
       ∃ ag1 g1, exec_calls ag g cs1 = Ok (ag1, g1)
                 ∧ (get_q_table_size ag ≤ get_q_table_size ag1)%Z
                 ∧ (get_q_table_size ag1 ≤ get_q_table_size ag')%Z).
Proof.
  intros W Pos V.
  destruct (exec_calls_spec cs ag g W Pos V) as (ag' & g' & E & Dm & W' & S').
  exists ag', g'. split; [done|]. split; [done|]. split.
  - intros Em. rewrite get_q_table_size_dom, Dm, Em, dom_empty_L.
    by rewrite (left_id_L ∅ (∪)).
  - intros cs1 cs2 ->. apply Forall_app in V as [V1 V2].
    destruct (exec_calls_spec cs1 ag g W Pos V1) as (ag1 & g1 & E1 & Dm1 & W1 & S1).
    exists ag1, g1. split; [done|].
    rewrite exec_calls_app, E1 in E. simpl in E.
    destruct (exec_calls_spec cs2 ag1 g1) as (ag2 & g2 & E2 & Dm2 & _); [done | lia | |].
    { eapply Forall_impl; [exact V2|]. intros [] ?; simpl in *; [done | lia]. }
    assert (ag2 = ag') as -> by congruence.
    rewrite !get_q_table_size_dom. split; apply inj_le, subseteq_size; set_solver.
Qed.

End ValueTable.

Lemma q_update_rule_witness :
  ∃ ag' old target,
    QLearningAgent.update QLearningAgent.default [mkState 0.5 0 0 1; mkState 0.58 1 1 2]
      0 2 6 1 false = Ok ag'
    ∧ q_values QLearningAgent.default (to_key (deref [mkState 0.5 0 0 1; mkState 0.58 1 1 2] 0))
        !! Z.to_nat 2 = Some old
    ∧ (if false then target = 6%Q
       else ∃ m, np_max (q_values QLearningAgent.default
                    (to_key (deref [mkState 0.5 0 0 1; mkState 0.58 1 1 2] 1))) = Ok m
                 ∧ target = (6 + QLearningAgent.discount_factor QLearningAgent.default * m)%Q)
    ∧ q_values ag' (to_key (deref [mkState 0.5 0 0 1; mkState 0.58 1 1 2] 0)) !! Z.to_nat 2
      = Some (old + QLearningAgent.learning_rate QLearningAgent.default * (target - old))%Q
    ∧ (∀ k j, (k, j) ≠ (to_key (deref [mkState 0.5 0 0 1; mkState 0.58 1 1 2] 0), Z.to_nat 2) →
         q_values ag' k !! j = q_values QLearningAgent.default k !! j).
Proof.
  apply (q_update_rule QLearningAgent.default [mkState 0.5 0 0 1; mkState 0.58 1 1 2]
           0 2 6 1 false).
  - apply map_Forall_empty.
  - simpl. lia.
Defined.

Lemma table_size_counts_lookups_witness :
  ∃ ag' g',
    exec_calls QLearningAgent.default ([0.1; 0.5; 0.9] : tape)%Q
      [Select [mkState 0.5 0 0 1] 0;
       Update [mkState 0.58 1 1 0] 0 0 2 0 false;
       Select [mkState 0.58 1 1 0] 0;
       Update [mkState 0.66 2 2 3] 0 3 8 0 true] = Ok (ag', g')
    ∧ dom (QLearningAgent.q_table ag')
      = dom (QLearningAgent.q_table QLearningAgent.default)
        ∪ all_keys_looked_up QLearningAgent.default ([0.1; 0.5; 0.9] : tape)%Q
            [Select [mkState 0.5 0 0 1] 0;
             Update [mkState 0.58 1 1 0] 0 0 2 0 false;
             Select [mkState 0.58 1 1 0] 0;
             Update [mkState 0.66 2 2 3] 0 3 8 0 true]
    ∧ (QLearningAgent.q_table QLearningAgent.default = ∅ →
       QLearningAgent.get_q_table_size ag'
       = Z.of_nat (size (all_keys_looked_up QLearningAgent.default ([0.1; 0.5; 0.9] : tape)%Q
            [Select [mkState 0.5 0 0 1] 0;
             Update [mkState 0.58 1 1 0] 0 0 2 0 false;
             Select [mkState 0.58 1 1 0] 0;
             Update [mkState 0.66 2 2 3] 0 3 8 0 true])))
    ∧ (∀ cs1 cs2,
       [Select [mkState 0.5 0 0 1] 0;
        Update [mkState 0.58 1 1 0] 0 0 2 0 false;
        Select [mkState 0.58 1 1 0] 0;
        Update [mkState 0.66 2 2 3] 0 3 8 0 true] = cs1 ++ cs2 →
       ∃ ag1 g1, exec_calls QLearningAgent.default ([0.1; 0.5; 0.9] : tape)%Q cs1 = Ok (ag1, g1)
                 ∧ (QLearningAgent.get_q_table_size QLearningAgent.default
                    ≤ QLearningAgent.get_q_table_size ag1)%Z
                 ∧ (QLearningAgent.get_q_table_size ag1
                    ≤ QLearningAgent.get_q_table_size ag')%Z).
Proof.
  apply (table_size_counts_lookups (G := tape) QLearningAgent.default).
  - apply map_Forall_empty.
  - simpl. lia.
  - repeat constructor; simpl; lia.
Defined.

(** C4 (as the claim has it) fails.  A [select_action] that explores (the
    draw 0.1 is below ε = 0.2) is passed a state but leaves the table
    empty; a terminal [update] is passed two states with different keys
    but binds only the first. *)
Lemma table_size_keys_passed_counterexample :
  (∃ ag' g',
     exec_calls QLearningAgent.default ([0.1] : tape)%Q [Select [mkState 0.5 0 0 1] 0]
       = Ok (ag', g')
     ∧ QLearningAgent.get_q_table_size ag' = 0%Z
     ∧ size (all_keys_passed [Select [mkState 0.5 0 0 1] 0]) = 1)
  ∧ (∃ ag' g',
     exec_calls QLearningAgent.default ([] : tape)
       [Update [mkState 0.5 0 0 1; mkState 0.9 4 9 2] 0 1 4 1 true] = Ok (ag', g')
     ∧ QLearningAgent.get_q_table_size ag' = 1%Z
     ∧ size (all_keys_passed [Update [mkState 0.5 0 0 1; mkState 0.9 4 9 2] 0 1 4 1 true])
       = 2).
Proof.
  split.
  - eexists _, _. split; [vm_compute; reflexivity|]. split; [done|].
    change (all_keys_passed ?cs) with (⋃ (keys_passed <$> cs)).
    rewrite fmap_cons, union_list_cons, fmap_nil, union_list_nil, (right_id_L ∅ (∪)).
    change (keys_passed (Select ?h ?l)) with ({[ to_key (deref h l) ]} : gset string).
    apply size_singleton.
  - eexists _, _. split; [vm_compute; reflexivity|]. split; [vm_compute; reflexivity|].
    change (all_keys_passed ?cs) with (⋃ (keys_passed <$> cs)).
    rewrite fmap_cons, union_list_cons, fmap_nil, union_list_nil, (right_id_L ∅ (∪)).
    change (keys_passed (Update ?h ?l _ _ ?l' _))
      with ({[ to_key (deref h l) ]} ∪ {[ to_key (deref h l') ]} : gset string).
    rewrite size_union, !size_singleton; [done|].
    apply disjoint_singleton_l. rewrite elem_of_singleton. vm_compute. discriminate.
Qed.


(** ** Slices *)

Lemma py_slice_prefix {A} (l : list A) (n : Z) :
  (0 ≤ n)%Z → py_slice l None (Some n) = take (Z.to_nat n) l.
Proof.
  intros L. unfold py_slice, py_bound. simpl.
  assert ((n <? 0)%Z = false) as -> by lia.
  rewrite Z.sub_0_r. change (Z.to_nat 0) with 0. rewrite drop_0.
  destruct (decide (Z.of_nat (length l) ≤ n)%Z).
  - rewrite Z.min_l by done. rewrite Nat2Z.id. rewrite !take_ge; [done | lia | lia].
  - by rewrite Z.min_r by lia.
Qed.

Lemma py_slice_suffix {A} (l : list A) (n : Z) :
  (0 < n)%Z → py_slice l (Some (- n)%Z) None = drop (length l - Z.to_nat n) l.
Proof.
  intros L. unfold py_slice, py_bound. simpl.
  assert ((- n <? 0)%Z = true) as -> by lia.
  replace (Z.to_nat (Z.max 0 (Z.of_nat (length l) + - n))) with (length l - Z.to_nat n) by lia.
  apply take_ge. rewrite length_drop. lia.
Qed.

Lemma py_slice_window {A} (l : list A) (n : Z) :
  (0 < n)%Z → (2 * n ≤ Z.of_nat (length l))%Z →
  py_slice l (Some (- n * 2)%Z) (Some (- n)%Z)
  = take (Z.to_nat n) (drop (length l - 2 * Z.to_nat n) l).
Proof.
  intros L L2. unfold py_slice, py_bound. simpl.
  assert ((- n * 2 <? 0)%Z = true) as -> by lia.
  assert ((- n <? 0)%Z = true) as -> by lia.
  f_equal; [lia|]. f_equal. lia.
Qed.

Lemma py_getitem_last {A} (l : list A) :
  l ≠ [] → ∃ x, py_getitem l (-1) = Ok x ∧ last l = Some x.
Proof.
  intros N. unfold py_getitem, py_index.
  assert (0 < length l) by (destruct l; [done | simpl; lia]).
  rewrite bool_decide_eq_false_2 by lia. rewrite bool_decide_eq_true_2 by lia.
  simpl. replace (Z.to_nat (Z.of_nat (length l) + -1)) with (pred (length l)) by lia.
  rewrite <- last_lookup. destruct (last l) as [x|] eqn:E; [eauto|].
  apply last_None in E. done.
Qed.

Lemma np_mean_nonempty (l : list Q) : l ≠ [] → np_mean l = Fin (mean l).
Proof. by destruct l. Qed.

(** ** The report *)

Section Report.
Import ExperimentRunner.
Variable np_sqrt : Q → Q.

Lemma generate_report_Ok (r : t) (time : Q) :
  episode_rewards (metrics r) ≠ [] →
  ∃ mx mn perf size,
    py_max_list (episode_rewards (metrics r)) = Ok mx
    ∧ py_min_list (episode_rewards (metrics r)) = Ok mn
    ∧ perf = default 0%Q (last (performance_history (metrics r)))
    ∧ size = default 0%Z (last (q_table_sizes (metrics r)))
    ∧ ∃ rep, _generate_report np_sqrt r time = Ok rep
        ∧ max_reward rep = mx ∧ min_reward rep = mn
        ∧ final_performance rep = perf ∧ final_q_table_size rep = size
        ∧ total_episodes rep = Z.of_nat (length (episode_rewards (metrics r)))
        ∧ total_reward rep = py_sum (episode_rewards (metrics r))
        ∧ avg_reward rep = Fin (mean (episode_rewards (metrics r)))
        ∧ report_convergence_episode rep = convergence_episode (metrics r)
        ∧ report_action_distribution rep = action_distribution (metrics r)
        ∧ improvement rep =
            (if bool_decide (20 ≤ length (episode_rewards (metrics r))) then
               let initial_avg :=
                 np_mean (py_slice (episode_rewards (metrics r)) None (Some 10%Z)) in
               let final_avg :=
                 np_mean (py_slice (episode_rewards (metrics r)) (Some (-10)%Z) None) in
               if np_ne initial_avg (Fin 0)
               then np_mul (np_div (np_sub final_avg initial_avg) (np_abs initial_avg))
                           (Fin 100)
               else Fin 0
             else Fin 0).
Proof.
  intros N. unfold _generate_report.
  destruct (episode_rewards (metrics r)) as [|x rewards] eqn:E; [done|].
  eexists _, _, _, _. split; [done|]. split; [done|]. split; [done|]. split; [done|].
  set (mx := py_max_list (x :: rewards)). simpl in mx. subst mx.
  set (mn := py_min_list (x :: rewards)). simpl in mn. subst mn.
  cbn [mbind result_bind].
  destruct (performance_history (metrics r)) as [|y l] eqn:Ep;
    [|destruct (py_getitem_last (y :: l)) as (p & -> & ->); [done|]];
    (destruct (q_table_sizes (metrics r)) as [|z l'] eqn:Es;
      [|destruct (py_getitem_last (z :: l')) as (p' & -> & ->); [done|]]);
    cbn [mbind result_bind]; (eexists; split; [done|]; simpl; done).
Qed.

(** C6: when a report is produced (at least one episode was recorded), its
    improvement field is 0 if fewer than 20 episodes were recorded or if the
    mean of the first 10 rewards is 0, and otherwise it is (mean of the
    last 10 - mean of the first 10) / |mean of the first 10| * 100. *)
Theorem improvement_field (r : t) (time : Q) :
  episode_rewards (metrics r) ≠ [] →
  ∃ rep,
    _generate_report np_sqrt r time = Ok rep
    ∧ let rewards := episode_rewards (metrics r) in
      let first_10 := mean (take 10 rewards) in
      let last_10 := mean (drop (length rewards - 10) rewards) in
      (length rewards < 20 ∨ (first_10 == 0)%Q → improvement rep = Fin 0)
      ∧ (20 ≤ length rewards → ¬ (first_10 == 0)%Q →
         improvement rep = Fin ((last_10 - first_10) / Qabs first_10 * 100)%Q).
Proof.
  intros N.
  destruct (generate_report_Ok r time N)
    as (mx & mn & perf & size & _ & _ & _ & _ & rep & E & _ & _ & _ & _ & _ & _ & _ & _ & _ & I).
  exists rep. split; [done|]. simpl. rewrite I. clear I E.
  case_bool_decide as L.
  - rewrite py_slice_prefix by lia. rewrite (py_slice_suffix _ 10) by lia.
    change (Z.to_nat 10) with 10.
    assert (take 10 (episode_rewards (metrics r)) ≠ []) as N1.
    { intros E. apply (f_equal length) in E. rewrite length_take in E. cbn [length] in E. lia. }
    assert (drop (length (episode_rewards (metrics r)) - 10) (episode_rewards (metrics r)) ≠ [])
      as N2.
    { intros E. apply (f_equal length) in E. rewrite length_drop in E. cbn [length] in E. lia. }
    rewrite !np_mean_nonempty by done. simpl.
    destruct (Qeq_bool (mean (take 10 (episode_rewards (metrics r)))) 0) eqn:Z; simpl.
    + apply Qeq_bool_iff in Z. split; [done|]. intros _ NZ. done.
    + apply Qeq_bool_neq in Z. split; [|done]. intros [?|?]; [lia | done].
  - split; [done|]. intros. lia.
Qed.

(** C3 (what the code does): with no recorded episode, building the report
    raises [ValueError] at [max(rewards)]. *)
Theorem report_raises_without_episodes (r : t) (time : Q) :
  episode_rewards (metrics r) = [] →
  _generate_report np_sqrt r time = Raise ValueError.
Proof. intros E. unfold _generate_report. rewrite E. done. Qed.

End Report.

(** ** The runner *)

Section Runner.
Import ExperimentRunner.
Context `{RandomSource G} `{Binary64}.

Lemma step_inv (env : TutorialEnvironment.t) (h : heap) (g : G) (action : Z)
    env' h' g' l reward done info :
  TutorialEnvironment.step env h g action = Ok (env', h', g', (l, reward, done, info)) →
  l = TutorialEnvironment.state env
  ∧ TutorialEnvironment.state env' = TutorialEnvironment.state env
  ∧ TutorialEnvironment.profile env' = TutorialEnvironment.profile env
  ∧ length h' = length h
  ∧ done = bool_decide (20 ≤ questions_answered (deref h l) + 1)%Z
  ∧ (l < length h →
     questions_answered (deref h' l) = (questions_answered (deref h l) + 1)%Z
     ∧ difficulty (deref h' l) = action).
Proof.
  unfold TutorialEnvironment.step. intros E.
  apply bind_Ok in E as (p & Ep & E). destruct (np_random g) as [u g1].
  apply bind_Ok in E as (rw & Er & E). apply bind_Ok in E as (lbl & El & E).
  injection E as <- <- <- <- <- <- <-. simpl.
  split; [done|]. split; [done|]. split; [done|].
  split; [apply length_insert|]. split; [done|].
  intros V. unfold deref, store. rewrite list_lookup_total_insert_eq by done. done.
Qed.

Lemma loop_body_inv (r : t) (h : heap) (g : G) (v : locals) r' h' g' v' c done :
  loop_body r h g v = Ok (r', h', g', v', c, done) →
  state v = TutorialEnvironment.state (env r) →
  call_state c = state v
  ∧ call_next_state c = state v
  ∧ call_heap c = h'
  ∧ call_done c = done
  ∧ state v' = TutorialEnvironment.state (env r')
  ∧ TutorialEnvironment.state (env r') = TutorialEnvironment.state (env r)
  ∧ length h' = length h
  ∧ done = bool_decide (20 ≤ questions_answered (deref h (state v)) + 1)%Z
  ∧ (state v < length h →
     questions_answered (deref h' (state v)) = (questions_answered (deref h (state v)) + 1)%Z
     ∧ difficulty (deref h' (state v)) = call_action c)
  ∧ actions_taken v' = actions_taken v ++ [call_action c]
  ∧ agent_type r' = agent_type r
  ∧ episode_rewards (metrics r') = episode_rewards (metrics r)
  ∧ success_rates (metrics r') = success_rates (metrics r)
  ∧ performance_history (metrics r') = performance_history (metrics r)
  ∧ difficulty_history (metrics r') = difficulty_history (metrics r)
  ∧ convergence_episode (metrics r') = convergence_episode (metrics r)
  ∧ q_table_sizes (metrics r') = q_table_sizes (metrics r).
Proof.
  unfold loop_body. intros E Hs.
  apply bind_Ok in E as ([[a ag] g1] & Ea & E).
  apply bind_Ok in E as ([[[env1 h1] g2] [[[l rw] d] info]] & Est & E).
  apply bind_Ok in E as (ag' & Eu & E).
  apply bind_Ok in E as (x & Ex & E). apply bind_Ok in E as (dist & Ed & E).
  injection E as <- <- <- <- <- <-. simpl.
  apply step_inv in Est as (-> & S1 & _ & Ln & Dn & Q).
  rewrite <- Hs in *. done.
Qed.

Lemma loop_inv (fuel : nat) (r : t) (h : heap) (g : G) (v : locals)
    (calls : list update_call) r' h' g' v' calls' :
  loop fuel r h g v calls = Ok (r', h', g', v', calls') →
  state v = TutorialEnvironment.state (env r) →
  (∃ new, calls' = calls ++ new
          ∧ Forall (λ c, call_state c = call_next_state c) new
          ∧ actions_taken v' = actions_taken v ++ (call_action <$> new))
  ∧ state v' = TutorialEnvironment.state (env r')
  ∧ TutorialEnvironment.state (env r') = TutorialEnvironment.state (env r)
  ∧ length h' = length h
  ∧ agent_type r' = agent_type r
  ∧ episode_rewards (metrics r') = episode_rewards (metrics r)
  ∧ success_rates (metrics r') = success_rates (metrics r)
  ∧ performance_history (metrics r') = performance_history (metrics r)
  ∧ difficulty_history (metrics r') = difficulty_history (metrics r)
  ∧ convergence_episode (metrics r') = convergence_episode (metrics r)
  ∧ q_table_sizes (metrics r') = q_table_sizes (metrics r).
Proof.
  revert r h g v calls. induction fuel as [|fuel IH]; intros r h g v calls E Hs; [done|].
  simpl in E. apply bind_Ok in E as ([[[[[r1 h1] g1] v1] c] d] & Eb & E).
  apply loop_body_inv in Eb
    as (C1 & C2 & _ & _ & S1 & S2 & L1 & _ & _ & A1 & M0 & M1 & M2 & M3 & M4 & M5 & M6);
    [|done].
  destruct d.
  - injection E as <- <- <- <- <-. split.
    + exists [c]. split; [done|]. split; [|done]. constructor; [congruence | done].
    + repeat split; congruence.
  - apply IH in E as ((new & -> & F & A) & S' & S2' & L' & M0' & M1' & M2' & M3' & M4' & M5' & M6');
      [|done].
    split.
    + exists (c :: new). split; [by rewrite <- app_assoc|].
      split; [constructor; [congruence | done]|].
      rewrite A, A1, <- app_assoc. done.
    + repeat split; congruence.
Qed.

(** C10: every [update] the episode loop issues gets the same [State]
    object as [state] and as [next_state]; the two are equal field for
    field, and so are their discretized keys, the one of the entry updated
    and the one of the bootstrap maximum. *)
Theorem update_state_is_next_state (fuel : nat) (r : t) (h : heap) (g : G) (n : Z)
    r' h' g' reward (calls : list update_call) :
  run_episode_calls fuel r h g n = Ok (r', h', g', reward, calls) →
  Forall (λ c,
    call_state c = call_next_state c
    ∧ deref (call_heap c) (call_state c) = deref (call_heap c) (call_next_state c)
    ∧ to_key (deref (call_heap c) (call_state c))
      = to_key (deref (call_heap c) (call_next_state c))) calls.
Proof.
  unfold run_episode_calls. intros E.
  destruct (TutorialEnvironment.reset (env r) h) as [[env0 h0] s0] eqn:Er.
  apply bind_Ok in E as ([[[[r1 h1] g1] v1] calls1] & El & E).
  injection E as <- <- <- <- <-.
  apply loop_inv in El as ((new & -> & F & _) & _).
  - simpl. eapply Forall_impl; [exact F|]. intros c ->. done.
  - simpl. unfold TutorialEnvironment.reset, TutorialEnvironment.reset_with in Er.
    simpl in Er. by injection Er as <- <- <-.
Qed.

Lemma run_episode_calls_inv (fuel : nat) (r : t) (h : heap) (g : G) (n : Z)
    r' h' g' reward calls :
  run_episode_calls fuel r h g n = Ok (r', h', g', reward, calls) →
  agent_type r' = agent_type r
  ∧ episode_rewards (metrics r') = episode_rewards (metrics r)
  ∧ convergence_episode (metrics r') = convergence_episode (metrics r)
  ∧ length h' = S (length h)
  ∧ TutorialEnvironment.state (env r') = length h
  ∧ (∃ rate, success_rates (metrics r') = success_rates (metrics r) ++ [rate])
  ∧ performance_history (metrics r')
    = performance_history (metrics r) ++ [performance (deref h' (length h))]
  ∧ difficulty_history (metrics r') = difficulty_history (metrics r) ++ [call_action <$> calls]
  ∧ q_table_sizes (metrics r') = q_table_sizes (metrics r) ++ [get_q_table_size (agent r')].
Proof.
  unfold run_episode_calls. intros E.
  unfold TutorialEnvironment.reset, TutorialEnvironment.reset_with, alloc in E.
  apply bind_Ok in E as ([[[[r1 h1] g1] v1] calls1] & El & E).
  injection E as <- <- <- <- <-.
  apply loop_inv in El
    as ((new & -> & F & A) & S1 & S2 & L1 & M0 & M1 & M2 & M3 & M4 & M5 & M6); [|done].
  simpl in *. rewrite length_app in L1. simpl in L1.
  rewrite M0, M1, M2, M3, M4, M5, M6, S1, S2, A.
  repeat split; [lia | by eexists].
Qed.

Lemma run_episode_inv (fuel : nat) (r : t) (h : heap) (g : G) (n : Z) r' h' g' reward :
  run_episode fuel r h g n = Ok (r', h', g', reward) →
  agent_type r' = agent_type r
  ∧ episode_rewards (metrics r') = episode_rewards (metrics r)
  ∧ convergence_episode (metrics r') = convergence_episode (metrics r)
  ∧ length (success_rates (metrics r')) = S (length (success_rates (metrics r)))
  ∧ length (performance_history (metrics r')) = S (length (performance_history (metrics r)))
  ∧ length (q_table_sizes (metrics r')) = S (length (q_table_sizes (metrics r))).
Proof.
  unfold run_episode. intros E.
  apply bind_Ok in E as ([[[[r1 h1] g1] rw] calls] & Ec & E).
  injection E as <- <- <- <-.
  apply run_episode_calls_inv in Ec as (M0 & M1 & M2 & _ & _ & (rate & M3) & M4 & _ & M5).
  rewrite M3, M4, M5, !length_app. simpl. repeat split; [done.. | lia | lia | lia].
Qed.

Lemma check_convergence_spec (r : t) :
  _check_convergence r 10 0.5 = true ↔ converged_on (episode_rewards (metrics r)).
Proof.
  unfold _check_convergence, converged_on. set (rewards := episode_rewards (metrics r)).
  case_bool_decide as L.
  - split; [done|]. intros [? _]. lia.
  - rewrite (py_slice_suffix rewards 10) by lia.
    rewrite (py_slice_window rewards 10) by lia.
    change (Z.to_nat 10) with 10. change (2 * 10) with 20.
    split; [intros ?; split; [lia | done] | by intros [_ ?]].
Qed.

Lemma check_convergence_ext (r1 r2 : t) (window : Z) (threshold : Q) :
  episode_rewards (metrics r1) = episode_rewards (metrics r2) →
  _check_convergence r1 window threshold = _check_convergence r2 window threshold.
Proof. intros E. unfold _check_convergence. by rewrite E. Qed.

Lemma experiment_body_inv (fuel : nat) (r : t) (h : heap) (g : G) (episode : Z) r' h' g' :
  experiment_body fuel r h g episode = Ok (r', h', g') →
  agent_type r' = agent_type r
  ∧ (∃ reward, episode_rewards (metrics r') = episode_rewards (metrics r) ++ [reward])
  ∧ convergence_episode (metrics r')
    = match convergence_episode (metrics r) with
      | Some e => Some e
      | None => if _check_convergence r' 10 0.5 then Some episode else None
      end.
Proof.
  unfold experiment_body. intros E.
  apply bind_Ok in E as ([[[r1 h1] g1] reward] & Ee & E).
  apply run_episode_inv in Ee as (M0 & M1 & M2 & _).
  match type of E with
  | context [_check_convergence ?x 10 0.5 && _] => remember x as r2 eqn:Hr2
  end.
  assert (episode_rewards (metrics r2) = episode_rewards (metrics r) ++ [reward]) as R2
    by (subst r2; simpl; by rewrite M1).
  assert (agent_type r2 = agent_type r) as A2 by by subst r2.
  assert (convergence_episode (metrics r2) = convergence_episode (metrics r)) as C2
    by by subst r2.
  injection E as <- <- <-. rewrite M2.
  destruct (convergence_episode (metrics r)) as [e|] eqn:Ec.
  - rewrite bool_decide_eq_false_2, andb_false_r by done.
    split; [done|]. split; [by eexists | by rewrite C2].
  - rewrite bool_decide_eq_true_2, andb_true_r by done.
    destruct (_check_convergence r2 10 0.5) eqn:Eb.
    + simpl. split; [congruence|]. split; [exists reward; congruence|].
      erewrite (check_convergence_ext _ r2); [by rewrite Eb|]. simpl. congruence.
    + rewrite Eb. split; [done|]. split; [by eexists | by rewrite C2].
Qed.

Lemma experiment_loop_inv (fuel count : nat) (episode : Z) (r : t) (h : heap) (g : G)
    r' h' g' :
  experiment_loop fuel count episode r h g = Ok (r', h', g') →
  agent_type r' = agent_type r
  ∧ length (episode_rewards (metrics r')) = length (episode_rewards (metrics r)) + count
  ∧ (∀ e, convergence_episode (metrics r) = Some e →
          convergence_episode (metrics r') = Some e).
Proof.
  revert episode r h g. induction count as [|count IH]; intros episode r h g E.
  - injection E as <- <- <-. split; [done|]. split; [lia | done].
  - simpl in E. apply bind_Ok in E as ([[r1 h1] g1] & Eb & E).
    apply experiment_body_inv in Eb as (M0 & (reward & M1) & M2).
    apply IH in E as (M0' & M1' & M2').
    split; [congruence|]. split.
    + rewrite M1', M1, length_app. simpl. lia.
    + intros e Ee. apply M2'. by rewrite M2, Ee.
Qed.

End Runner.

(** ** Selecting an action *)

Lemma foldl_py_max_elem (x : Q) (l : list Q) : foldl py_max x l ∈ x :: l.
Proof.
  revert x. induction l as [|y l IH]; intros x; simpl; [set_solver|].
  destruct (py_max_spec x y) as (_ & _ & [E | E]); rewrite E.
  - specialize (IH x). set_solver.
  - specialize (IH y). set_solver.
Qed.

Lemma foldl_py_max_upper (x : Q) (l : list Q) (y : Q) :
  (y <= x)%Q ∨ y ∈ l → (y <= foldl py_max x l)%Q.
Proof.
  revert x. induction l as [|z l IH]; intros x Hy; simpl.
  - destruct Hy as [Hy | Hy]; [done | set_solver].
  - destruct (py_max_spec x z) as (M1 & M2 & _). apply IH.
    destruct Hy as [Hy | [-> | Hy]%elem_of_cons]; [left; lra | by left | by right].
Qed.

Lemma np_where_eq_from_range (i : Z) (x : Q) (v : list Q) (a : Z) :
  a ∈ np_where_eq_from i x v → (i ≤ a < i + Z.of_nat (length v))%Z.
Proof.
  revert i. induction v as [|y v IH]; intros i; simpl; [set_solver|].
  destruct (Qeq_bool y x).
  - intros [-> | Ha]%elem_of_cons; [lia|]. apply IH in Ha. lia.
  - intros Ha. apply IH in Ha. lia.
Qed.

Lemma np_where_eq_from_elem (i : Z) (x : Q) (v : list Q) :
  x ∈ v → np_where_eq_from i x v ≠ [].
Proof.
  revert i. induction v as [|y v IH]; intros i; simpl; [set_solver|].
  intros [<- | Hx]%elem_of_cons.
  - by rewrite Qeq_bool_refl.
  - destruct (Qeq_bool y x); [done | by apply IH].
Qed.

(** The best actions of a non-empty row: there is one, and each is an
    index of the row. *)
Lemma best_actions_spec (v : list Q) :
  v ≠ [] →
  ∃ m, np_max v = Ok m
       ∧ np_where_eq v m ≠ []
       ∧ ∀ a, a ∈ np_where_eq v m → (0 ≤ a < Z.of_nat (length v))%Z.
Proof.
  intros N. destruct v as [|x l]; [done|]. exists (foldl py_max x l).
  split; [done|]. split.
  - apply np_where_eq_from_elem, foldl_py_max_elem.
  - intros a Ha. apply np_where_eq_from_range in Ha. lia.
Qed.

Lemma np_argmax_spec (v : list Q) :
  v ≠ [] → ∃ a, np_argmax v = Ok a ∧ (0 ≤ a < Z.of_nat (length v))%Z.
Proof.
  intros N. destruct (best_actions_spec v N) as (m & Em & Ne & R).
  unfold np_argmax. rewrite Em. simpl.
  destruct (np_where_eq v m) as [|a l] eqn:E; [done|].
  exists a. split; [done|]. apply R. set_solver.
Qed.

Section Total.
Import ExperimentRunner.
Context `{RandomSourceLaws G} `{Binary64}.

Lemma qlearning_select_total (ag : QLearningAgent.t) (h : heap) (g : G) (state : loc) :
  qlearning_ok ag →
  ∃ a ag' g',
    QLearningAgent.select_action ag h g state = Ok (a, ag', g')
    ∧ (0 ≤ a < 4)%Z ∧ qlearning_ok ag'.
Proof.
  intros [W S]. unfold QLearningAgent.select_action.
  destruct (np_random g) as [u g1].
  destruct (Qltb u (QLearningAgent.epsilon ag)).
  - rewrite bool_decide_eq_false_2 by lia.
    pose proof (randint_range (Z.of_nat (QLearningAgent.action_space ag)) g1) as R.
    destruct (np_randint _ g1) as [a g2]. simpl in R.
    exists a, ag, g2. split; [done|]. split; [lia | done].
  - destruct (q_row_spec ag (to_key (deref h state))) as (ag1 & -> & T1 & S1 & _).
    pose proof (q_values_length ag (to_key (deref h state)) W) as Ln.
    destruct (best_actions_spec (q_values ag (to_key (deref h state))))
      as (m & -> & Ne & R).
    { intros E. rewrite E in Ln. simpl in Ln. lia. }
    simpl. pose proof (choice_elem _ g1 Ne) as C.
    destruct (np_choice _ g1) as [a g2]. simpl in C.
    exists a, ag1, g2. split; [done|]. split; [apply R in C; lia|].
    split; [by eapply q_table_wf_bind | congruence].
Qed.

Lemma thompson_select_total (ag : ThompsonSamplingAgent.t) (g : G) :
  thompson_ok ag →
  ∃ a g', ThompsonSamplingAgent.select_action ag g = Ok (a, g') ∧ (0 ≤ a < 4)%Z.
Proof.
  intros [La Lb]. unfold ThompsonSamplingAgent.select_action.
  pose proof (beta_shape (ThompsonSamplingAgent.alpha ag) (ThompsonSamplingAgent.beta ag) g)
    as Sh.
  destruct (np_beta _ _ g) as [samples g1]. simpl in Sh.
  destruct (np_argmax_spec samples) as (a & -> & R).
  { intros E. rewrite E in Sh. simpl in Sh. lia. }
  simpl. exists a, g1. split; [done | lia].
Qed.

Lemma thompson_update_total (ag : ThompsonSamplingAgent.t) (action : Z) (reward : Q) :
  thompson_ok ag → (0 ≤ action < 4)%Z →
  ∃ ag', ThompsonSamplingAgent.update ag action reward = Ok ag' ∧ thompson_ok ag'.
Proof.
  intros [La Lb] V. unfold ThompsonSamplingAgent.update.
  destruct (Qltb 0 reward).
  - destruct (py_getitem_nonneg (ThompsonSamplingAgent.alpha ag) action) as (x & _ & ->);
      [lia|].
    simpl. rewrite py_setitem_nonneg by lia. simpl. eexists. split; [done|].
    split; simpl; [by rewrite length_insert | done].
  - destruct (py_getitem_nonneg (ThompsonSamplingAgent.beta ag) action) as (x & _ & ->);
      [lia|].
    simpl. rewrite py_setitem_nonneg by lia. simpl. eexists. split; [done|].
    split; simpl; [done | by rewrite length_insert].
Qed.

Lemma qlearning_update_total (ag : QLearningAgent.t) (h : heap) (state : loc) (action : Z)
    (reward : Q) (next_state : loc) (done : bool) :
  qlearning_ok ag → (0 ≤ action < 4)%Z →
  ∃ ag', QLearningAgent.update ag h state action reward next_state done = Ok ag'
         ∧ qlearning_ok ag'.
Proof.
  intros [W S] V.
  destruct (update_spec ag h state action reward next_state done W)
    as (ag' & _ & _ & E & _ & _ & _ & _ & _ & W' & S' & _); [lia|].
  exists ag'. split; [done|]. split; [done | congruence].
Qed.

Lemma select_action_total (ag : agent_t) (h : heap) (g : G) (state : loc) :
  agent_ok ag →
  ∃ a ag' g',
    select_action ag h g state = Ok (a, ag', g') ∧ (0 ≤ a < 4)%Z ∧ agent_ok ag'.
Proof.
  intros Hok. destruct ag as [q | th | hy]; simpl in *.
  - destruct (qlearning_select_total q h g state Hok) as (a & q' & g' & -> & R & Q').
    simpl. by exists a, (QLearning q'), g'.
  - destruct (thompson_select_total th g Hok) as (a & g' & -> & R).
    simpl. by exists a, (Thompson th), g'.
  - destruct Hok as [Hq Ht]. unfold HybridAgent.select_action.
    destruct (np_random g) as [u g1].
    destruct (Qltb u (HybridAgent.exploration_rate hy)).
    + destruct (thompson_select_total (HybridAgent.thompson_agent hy) g1 Ht)
        as (a & g' & -> & R).
      simpl. by exists a, (Hybrid hy), g'.
    + destruct (qlearning_select_total (HybridAgent.q_agent hy) h g1 state Hq)
        as (a & q' & g' & -> & R & Q').
      simpl. eexists a, (Hybrid _), g'. split; [done|]. split; [done|]. by split.
Qed.

Lemma update_total (ag : agent_t) (h : heap) (state : loc) (action : Z) (reward : Q)
    (next_state : loc) (done : bool) :
  agent_ok ag → (0 ≤ action < 4)%Z →
  ∃ ag', update ag h state action reward next_state done = Ok ag' ∧ agent_ok ag'.
Proof.
  intros Hok V. destruct ag as [q | th | hy]; simpl in *.
  - destruct (qlearning_update_total q h state action reward next_state done Hok V)
      as (q' & -> & Q').
    by exists (QLearning q').
  - destruct (thompson_update_total th action reward Hok V) as (th' & -> & T').
    by exists (Thompson th').
  - destruct Hok as [Hq Ht]. unfold HybridAgent.update.
    destruct (qlearning_update_total (HybridAgent.q_agent hy) h state action reward
                next_state done Hq V) as (q' & -> & Q').
    destruct (thompson_update_total (HybridAgent.thompson_agent hy) action reward Ht V)
      as (th' & -> & T').
    simpl. eexists (Hybrid _). split; [done|]. by split.
Qed.

Lemma step_total (env : TutorialEnvironment.t) (h : heap) (g : G) (action : Z) :
  (0 ≤ action < 4)%Z →
  ∃ env' h' g' reward done info,
    TutorialEnvironment.step env h g action
    = Ok (env', h', g', (TutorialEnvironment.state env, reward, done, info)).
Proof.
  intros V. unfold TutorialEnvironment.step.
  destruct (success_probability_Ok env h action) as (p & -> & _); [lia|].
  simpl. destruct (np_random g) as [u g'].
  destruct (calculate_reward_Ok env h action (Qltb u p)) as (_ & rw & _ & -> & _); [lia|].
  destruct (py_getitem_nonneg TutorialEnvironment.difficulties action) as (lbl & _ & ->);
    [simpl; lia|].
  simpl. by eexists _, _, _, _, _, _.
Qed.

Lemma loop_body_total (r : t) (h : heap) (g : G) (v : locals) :
  runner_ok r h →
  ∃ r' h' g' v' c done,
    loop_body r h g v = Ok (r', h', g', v', c, done)
    ∧ (0 ≤ call_action c < 4)%Z
    ∧ agent_ok (agent r')
    ∧ length (action_distribution (metrics r')) = 4.
Proof.
  intros (Ha & Ld & Vs). unfold loop_body.
  destruct (select_action_total (agent r) h g (state v) Ha) as (a & ag1 & g1 & -> & Ra & Ha1).
  simpl.
  destruct (step_total (env r) h g1 a Ra) as (env' & h' & g' & rw & d & info & ->).
  simpl.
  destruct (update_total ag1 h' (state v) a rw (TutorialEnvironment.state (env r)) d Ha1 Ra)
    as (ag2 & -> & Ha2).
  simpl.
  destruct (py_getitem_nonneg (action_distribution (metrics r)) a) as (x & _ & ->); [lia|].
  simpl. rewrite py_setitem_nonneg by lia. simpl.
  eexists _, _, _, _, _, _. split; [done|]. simpl.
  split; [done|]. split; [done|]. by rewrite length_insert.
Qed.

(** From a state with [q] questions answered, the loop runs [20 - q] more
    iterations. *)
Lemma loop_total (fuel : nat) (r : t) (h : heap) (g : G) (v : locals)
    (calls : list update_call) :
  runner_ok r h →
  state v = TutorialEnvironment.state (env r) →
  (0 ≤ questions_answered (deref h (state v)) < 20)%Z →
  (20 - questions_answered (deref h (state v)) ≤ Z.of_nat fuel)%Z →
  ∃ r' h' g' v' new,
    loop fuel r h g v calls = Ok (r', h', g', v', calls ++ new)
    ∧ Z.of_nat (length new) = (20 - questions_answered (deref h (state v)))%Z
    ∧ Forall (λ c, (0 ≤ call_action c < 4)%Z) new
    ∧ runner_ok r' h'
    ∧ questions_answered (deref h' (state v')) = 20%Z.
Proof.
  revert r h g v calls. induction fuel as [|fuel IH]; intros r h g v calls Hok Hs Hq Hf;
    [lia|].
  destruct (loop_body_total r h g v Hok) as (r1 & h1 & g1 & v1 & c & d & Eb & Rc & Ha1 & Ld1).
  pose proof Hok as (_ & _ & Vs).
  destruct (loop_body_inv _ _ _ _ _ _ _ _ _ _ Eb Hs)
    as (_ & _ & _ & _ & S1 & S2 & L1 & Dn & Qa & _).
  destruct Qa as [Qa _]; [lia|].
  assert (runner_ok r1 h1) as Hok1 by (split; [done|]; split; [done|]; lia).
  simpl. rewrite Eb. simpl. destruct d.
  - symmetry in Dn. apply bool_decide_eq_true in Dn.
    exists r1, h1, g1, v1, [c]. split; [done|]. simpl.
    split; [lia|]. split; [by constructor|]. split; [done|].
    rewrite S1, S2, <- Hs. lia.
  - symmetry in Dn. apply bool_decide_eq_false in Dn.
    assert (state v1 = state v) as Sv by congruence.
    destruct (IH r1 h1 g1 v1 (calls ++ [c])) as (r' & h' & g' & v' & new & E & Ln & F & Hok' & Q');
      [done | done | rewrite Sv; lia | rewrite Sv; lia |].
    exists r', h', g', v', (c :: new). rewrite E, <- app_assoc. split; [done|].
    split; [simpl; rewrite Sv in Ln; lia|]. split; [by constructor | done].
Qed.

(** Twenty units of fuel are enough for an episode, and an episode issues
    exactly twenty updates. *)
Lemma run_episode_calls_total (fuel : nat) (r : t) (h : heap) (g : G) (n : Z) :
  agent_ok (agent r) →
  length (action_distribution (metrics r)) = 4 →
  20 ≤ fuel →
  ∃ r' h' g' reward calls,
    run_episode_calls fuel r h g n = Ok (r', h', g', reward, calls)
    ∧ length calls = 20
    ∧ Forall (λ c, (0 ≤ call_action c < 4)%Z) calls
    ∧ runner_ok r' h'.
Proof.
  intros Ha Ld Hf. unfold run_episode_calls.
  unfold TutorialEnvironment.reset, TutorialEnvironment.reset_with, alloc.
  match goal with
  | |- context [loop fuel ?r0 ?h0 g ?v0 []] =>
      destruct (loop_total fuel r0 h0 g v0 []) as (r' & h' & g' & v' & new & -> & Ln & F & Hok & Q)
  end.
  - split; [done|]. split; [done|]. simpl. rewrite length_app. simpl. lia.
  - done.
  - simpl. unfold deref. rewrite lookup_total_app_r by done.
    rewrite Nat.sub_diag. simpl. lia.
  - simpl. unfold deref. rewrite lookup_total_app_r by done.
    rewrite Nat.sub_diag. simpl. lia.
  - simpl in Ln. unfold deref in Ln. rewrite lookup_total_app_r in Ln by done.
    rewrite Nat.sub_diag in Ln. simpl in Ln.
    simpl. eexists _, _, _, _, _. split; [done|].
    split; [lia|]. split; [done|]. destruct Hok as (? & ? & ?). done.
Qed.

Lemma run_episode_total (fuel : nat) (r : t) (h : heap) (g : G) (n : Z) :
  agent_ok (agent r) →
  length (action_distribution (metrics r)) = 4 →
  20 ≤ fuel →
  ∃ r' h' g' reward,
    run_episode fuel r h g n = Ok (r', h', g', reward) ∧ runner_ok r' h'.
Proof.
  intros Ha Ld Hf.
  destruct (run_episode_calls_total fuel r h g n Ha Ld Hf)
    as (r' & h' & g' & rw & calls & E & _ & _ & Hok).
  unfold run_episode. rewrite E. simpl. by exists r', h', g', rw.
Qed.

Lemma experiment_body_total (fuel : nat) (r : t) (h : heap) (g : G) (episode : Z) :
  agent_ok (agent r) →
  length (action_distribution (metrics r)) = 4 →
  20 ≤ fuel →
  ∃ r' h' g',
    experiment_body fuel r h g episode = Ok (r', h', g')
    ∧ agent_ok (agent r') ∧ length (action_distribution (metrics r')) = 4.
Proof.
  intros Ha Ld Hf.
  destruct (run_episode_total fuel r h g episode Ha Ld Hf)
    as (r1 & h1 & g1 & rw & E & (Ha1 & Ld1 & _)).
  unfold experiment_body. rewrite E. simpl.
  eexists _, _, _. split; [done|].
  match goal with |- context [if ?b then _ else _] => destruct b end; simpl; done.
Qed.

Lemma experiment_loop_total (fuel count : nat) (episode : Z) (r : t) (h : heap) (g : G) :
  agent_ok (agent r) →
  length (action_distribution (metrics r)) = 4 →
  20 ≤ fuel →
  ∃ r' h' g',
    experiment_loop fuel count episode r h g = Ok (r', h', g')
    ∧ agent_ok (agent r') ∧ length (action_distribution (metrics r')) = 4.
Proof.
  revert episode r h g. induction count as [|count IH]; intros episode r h g Ha Ld Hf.
  - by exists r, h, g.
  - destruct (experiment_body_total fuel r h g episode Ha Ld Hf)
      as (r1 & h1 & g1 & E & Ha1 & Ld1).
    simpl. rewrite E. simpl. by apply IH.
Qed.

(** C5: an episode of the experiment is run to its end, appends its reward
    and then, if no convergence episode is recorded yet, records the
    current episode index exactly when at least 20 rewards exist and the
    means of the last 10 and of the 10 before, taken and subtracted as the
    code does in binary64, differ by less than 0.5; a recorded convergence
    episode is kept by this and by every later episode. *)
Theorem convergence_episode_set_once (fuel : nat) (r : t) (h : heap) (g : G) (episode : Z) :
  agent_ok (agent r) →
  length (action_distribution (metrics r)) = 4 →
  20 ≤ fuel →
  ∃ r' h' g',
    experiment_body fuel r h g episode = Ok (r', h', g')
    ∧ (∃ reward, episode_rewards (metrics r') = episode_rewards (metrics r) ++ [reward])
    ∧ (convergence_episode (metrics r) = None →
       converged_on (episode_rewards (metrics r')) →
       convergence_episode (metrics r') = Some episode)
    ∧ (convergence_episode (metrics r) = None →
       ¬ converged_on (episode_rewards (metrics r')) →
       convergence_episode (metrics r') = None)
    ∧ (∀ e, convergence_episode (metrics r) = Some e →
            convergence_episode (metrics r') = Some e)
    ∧ (∀ count next,
       ∃ r'' h'' g'',
         experiment_loop fuel count next r' h' g' = Ok (r'', h'', g'')
         ∧ ∀ e, convergence_episode (metrics r') = Some e →
                convergence_episode (metrics r'') = Some e).
Proof.
  intros Ha Ld Hf.
  destruct (experiment_body_total fuel r h g episode Ha Ld Hf) as (r' & h' & g' & E & Ha' & Ld').
  exists r', h', g'. split; [done|].
  apply experiment_body_inv in E as (_ & Hr & Hc).
  split; [done|].
  pose proof (check_convergence_spec r') as Hs.
  split; [|split; [|split]].
  - intros N C. rewrite Hc, N. apply Hs in C. by rewrite C.
  - intros N C. rewrite Hc, N. destruct (_check_convergence r' 10 0.5); [|done].
    exfalso. apply C, Hs. done.
  - intros e Ee. by rewrite Hc, Ee.
  - intros count next.
    destruct (experiment_loop_total fuel count next r' h' g' Ha' Ld' Hf)
      as (r'' & h'' & g'' & El & _).
    exists r'', h'', g''. split; [done|].
    apply experiment_loop_inv in El as (_ & _ & K). exact K.
Qed.

End Total.

(** ** The tape is a lawful random source *)

Lemma tape_draws_length (n : nat) (g : tape) : length (tape_draws n g).1 = n.
Proof.
  revert g. induction n as [|n IH]; intros g; simpl; [done|].
  destruct (tape_next g) as [u g1]. specialize (IH g1).
  destruct (tape_draws n g1) as [us g2]. simpl in *. by rewrite IH.
Qed.

Lemma tape_randint_range (high : Z) (g : tape) :
  (0 < high)%Z → (0 ≤ (tape_randint high g).1 < high)%Z.
Proof.
  intros L. unfold tape_randint. destruct (tape_next g) as [u g1]. simpl.
  by apply Z.mod_pos_bound.
Qed.

#[export] Instance tape_laws : RandomSourceLaws tape.
Proof.
  split.
  - apply tape_randint_range.
  - intros a g N. simpl. unfold tape_choice.
    assert (0 < length a) by (destruct a; [done | simpl; lia]).
    pose proof (tape_randint_range (Z.of_nat (length a)) g) as R.
    destruct (tape_randint _ g) as [i g1]. simpl in *.
    destruct (lookup_lt_is_Some_2 a (Z.to_nat i)) as [x E]; [lia|].
    rewrite E. simpl. by eapply list_elem_of_lookup_2.
  - intros a b g. apply tape_draws_length.
Qed.

(** ** Configuration *)

Lemma learner_profiles_unknown (name : string) :
  name ≠ "fast" → name ≠ "average" → name ≠ "slow" →
  TutorialEnvironment.learner_profiles !! name = None.
Proof.
  intros N1 N2 N3. unfold TutorialEnvironment.learner_profiles.
  rewrite !list_to_map_cons, list_to_map_nil.
  rewrite !lookup_insert_ne by done. apply lookup_empty.
Qed.

Lemma learner_profiles_known (name : string) :
  name = "fast" ∨ name = "average" ∨ name = "slow" →
  is_Some (TutorialEnvironment.learner_profiles !! name).
Proof. intros [-> | [-> | ->]]; vm_compute; eauto. Qed.

Section Configuration.
Import ExperimentRunner.
Context `{RandomSourceLaws G} `{Binary64}.
Variable np_sqrt : Q → Q.

Lemma init_spec (agent_type env_type : string) (h : heap) :
  match TutorialEnvironment.learner_profiles !! env_type with
  | None => __init__ agent_type env_type h = Raise (KeyError env_type)
  | Some p =>
      __init__ agent_type env_type h
      = Ok (Runner agent_type (TutorialEnvironment.Env p (length h) 0)
              (if bool_decide (agent_type = "qlearning") then QLearning QLearningAgent.default
               else if bool_decide (agent_type = "thompson")
                    then Thompson ThompsonSamplingAgent.default
                    else Hybrid HybridAgent.default)
              (Metrics [] [] (np_zeros 4) [] [] None []),
            h ++ [mkState 0.5 0 0 1])
  end.
Proof.
  unfold __init__, TutorialEnvironment.__init__.
  destruct (TutorialEnvironment.learner_profiles !! env_type); done.
Qed.

Lemma default_agents_ok (agent_type : string) :
  agent_ok (if bool_decide (agent_type = "qlearning") then QLearning QLearningAgent.default
            else if bool_decide (agent_type = "thompson")
                 then Thompson ThompsonSamplingAgent.default
                 else Hybrid HybridAgent.default).
Proof.
  repeat case_bool_decide; simpl; repeat split; try done; apply map_Forall_empty.
Qed.

Lemma run_experiment_total (fuel : nat) (r : t) (h : heap) (g : G) (n : Z) (time : Q) :
  agent_ok (agent r) →
  length (action_distribution (metrics r)) = 4 →
  20 ≤ fuel →
  (1 ≤ n)%Z →
  ∃ r' h' g' rep,
    run_experiment np_sqrt fuel r h g n time = Ok (r', h', g', rep)
    ∧ total_episodes rep = (Z.of_nat (length (episode_rewards (metrics r))) + n)%Z
    ∧ length (episode_rewards (metrics r')) = length (episode_rewards (metrics r)) + Z.to_nat n.
Proof.
  intros Ha Ld Hf Hn. unfold run_experiment.
  destruct (experiment_loop_total fuel (Z.to_nat n) 0 r h g Ha Ld Hf)
    as (r' & h' & g' & E & _).
  rewrite E. simpl. apply experiment_loop_inv in E as (_ & Ln & _).
  destruct (generate_report_Ok np_sqrt r' time)
    as (_ & _ & _ & _ & _ & _ & _ & _ & rep & -> & _ & _ & _ & _ & Te & _).
  { intros E. rewrite E in Ln. simpl in Ln. lia. }
  simpl. exists r', h', g', rep. split; [done|]. split; [|done]. rewrite Te, Ln. lia.
Qed.

(** C2 (as the code has it): an unknown learner profile makes the
    constructor raise [KeyError] (no runner, hence no episode and no
    metrics); with a known profile the constructor succeeds for every
    policy name, any name other than "qlearning" and "thompson" giving the
    hybrid policy, and no episode has run yet; [run_experiment] then runs
    as many episodes as it is asked for, whatever the count: one per unit
    for a count of 1 or more, none for a count of 0 or less, in which
    case the report raises [ValueError]. *)
Theorem configuration_handling (agent_type env_type : string) (h : heap) :
  (env_type ≠ "fast" → env_type ≠ "average" → env_type ≠ "slow" →
   __init__ agent_type env_type h = Raise (KeyError env_type))
  ∧ (env_type = "fast" ∨ env_type = "average" ∨ env_type = "slow" →
     ∃ r h',
       __init__ agent_type env_type h = Ok (r, h')
       ∧ metrics r = Metrics [] [] (np_zeros 4) [] [] None []
       ∧ (agent_type ≠ "qlearning" → agent_type ≠ "thompson" →
          agent r = Hybrid HybridAgent.default)
       ∧ (∀ (fuel : nat) (g : G) (n : Z) (time : Q), 20 ≤ fuel → (1 ≤ n)%Z →
          ∃ r' h'' g' rep,
            run_experiment np_sqrt fuel r h' g n time = Ok (r', h'', g', rep)
            ∧ total_episodes rep = n)
       ∧ (∀ (fuel : nat) (g : G) (n : Z) (time : Q), (n ≤ 0)%Z →
            run_experiment np_sqrt fuel r h' g n time = Raise ValueError)).
Proof.
  pose proof (init_spec agent_type env_type h) as I. split.
  - intros N1 N2 N3. by rewrite learner_profiles_unknown in I.
  - intros K. apply learner_profiles_known in K as [p K]. rewrite K in I.
    eexists _, _. split; [exact I|]. simpl. split; [done|]. split; [|split].
    + intros N1 N2. by rewrite !bool_decide_eq_false_2.
    + intros fuel g n time Hf Hn.
      match goal with
      | |- context [run_experiment _ _ ?r0 _ _ _ _] =>
          destruct (run_experiment_total fuel r0 (h ++ [mkState 0.5 0 0 1]) g n time)
            as (r' & h'' & g' & rep & E & Te & _)
      end; [apply default_agents_ok | done | done | done |].
      exists r', h'', g', rep. split; [done|]. rewrite Te. simpl. lia.
    + intros fuel g n time Hn. unfold run_experiment.
      replace (Z.to_nat n) with 0 by lia. done.
Qed.

End Configuration.

(** ** Concrete runs *)

Lemma configuration_handling_witness :
  (("bogus" : string) ≠ "fast" → ("bogus" : string) ≠ "average" → ("bogus" : string) ≠ "slow" →
   ExperimentRunner.__init__ "dqn" "bogus" [] = Raise (KeyError "bogus"))
  ∧ (("bogus" : string) = "fast" ∨ ("bogus" : string) = "average" ∨ ("bogus" : string) = "slow" →
     ∃ r h',
       ExperimentRunner.__init__ "dqn" "bogus" [] = Ok (r, h')
       ∧ ExperimentRunner.metrics r = ExperimentRunner.Metrics [] [] (np_zeros 4) [] [] None []
       ∧ (("dqn" : string) ≠ "qlearning" → ("dqn" : string) ≠ "thompson" →
          ExperimentRunner.agent r = ExperimentRunner.Hybrid HybridAgent.default)
       ∧ (∀ (fuel : nat) (g : tape) (n : Z) (time : Q), 20 ≤ fuel → (1 ≤ n)%Z →
          ∃ r' h'' g' rep,
            ExperimentRunner.run_experiment (λ x, x) fuel r h' g n time = Ok (r', h'', g', rep)
            ∧ ExperimentRunner.total_episodes rep = n)
       ∧ (∀ (fuel : nat) (g : tape) (n : Z) (time : Q), (n ≤ 0)%Z →
            ExperimentRunner.run_experiment (λ x, x) fuel r h' g n time = Raise ValueError)).
Proof.
  exact (configuration_handling (G := tape) (λ x, x) "dqn" "bogus" []).
Defined.

(** C2 (as the claim has it) fails: the unknown policy name "dqn" is
    accepted and gives the hybrid policy, and an experiment of 5 episodes,
    a count outside [10, 500], runs its 5 episodes and reports them. *)
Lemma configuration_fail_fast_counterexample :
  (∃ r h,
     ExperimentRunner.__init__ "dqn" "average" [] = Ok (r, h)
     ∧ ExperimentRunner.agent r = ExperimentRunner.Hybrid HybridAgent.default)
  ∧ (∃ r h r' h' g' rep,
     ExperimentRunner.__init__ "thompson" "average" [] = Ok (r, h)
     ∧ ExperimentRunner.run_experiment (λ x, x) 20 r h ([] : tape) 5 1 = Ok (r', h', g', rep)
     ∧ ExperimentRunner.total_episodes rep = 5%Z
     ∧ length (ExperimentRunner.episode_rewards (ExperimentRunner.metrics r')) = 5).
Proof.
  split.
  - eexists _, _. split; [vm_compute; reflexivity | done].
  - eexists _, _, _, _, _, _. split; [vm_compute; reflexivity|].
    split; [vm_compute; reflexivity|]. split; vm_compute; reflexivity.
Qed.

Lemma report_raises_without_episodes_witness :
  ExperimentRunner._generate_report (λ x, x)
    (ExperimentRunner.Runner "hybrid"
       (TutorialEnvironment.Env (TutorialEnvironment.Profile 0.6 0.08 0.02) 0 0)
       (ExperimentRunner.Hybrid HybridAgent.default)
       (ExperimentRunner.Metrics [] [] (np_zeros 4) [] [] None [])) 1
  = Raise ValueError.
Proof.
  apply report_raises_without_episodes. reflexivity.
Defined.

Lemma improvement_field_witness :
  ∃ rep,
    ExperimentRunner._generate_report (λ x, x)
      (ExperimentRunner.Runner "thompson"
         (TutorialEnvironment.Env (TutorialEnvironment.Profile 0.6 0.08 0.02) 0 0)
         (ExperimentRunner.Thompson ThompsonSamplingAgent.default)
         (ExperimentRunner.Metrics (replicate 10 1%Q ++ replicate 10 3%Q) [] (np_zeros 4)
            [] [] None [])) 1 = Ok rep
    ∧ let rewards := replicate 10 1%Q ++ replicate 10 3%Q in
      let first_10 := mean (take 10 rewards) in
      let last_10 := mean (drop (length rewards - 10) rewards) in
      (length rewards < 20 ∨ (first_10 == 0)%Q → ExperimentRunner.improvement rep = Fin 0)
      ∧ (20 ≤ length rewards → ¬ (first_10 == 0)%Q →
         ExperimentRunner.improvement rep = Fin ((last_10 - first_10) / Qabs first_10 * 100)%Q).
Proof.
  apply (improvement_field (λ x, x)
    (ExperimentRunner.Runner "thompson"
         (TutorialEnvironment.Env (TutorialEnvironment.Profile 0.6 0.08 0.02) 0 0)
         (ExperimentRunner.Thompson ThompsonSamplingAgent.default)
         (ExperimentRunner.Metrics (replicate 10 1%Q ++ replicate 10 3%Q) [] (np_zeros 4)
            [] [] None [])) 1).
  simpl. discriminate.
Defined.

Lemma update_state_is_next_state_witness :
  ∃ r h r' h' g' reward calls,
    ExperimentRunner.__init__ "thompson" "slow" [] = Ok (r, h)
    ∧ ExperimentRunner.run_episode_calls 20 r h ([0.9; 0.1; 0.7] : tape)%Q 0
      = Ok (r', h', g', reward, calls)
    ∧ Forall (λ c,
        ExperimentRunner.call_state c = ExperimentRunner.call_next_state c
        ∧ deref (ExperimentRunner.call_heap c) (ExperimentRunner.call_state c)
          = deref (ExperimentRunner.call_heap c) (ExperimentRunner.call_next_state c)
        ∧ to_key (deref (ExperimentRunner.call_heap c) (ExperimentRunner.call_state c))
          = to_key (deref (ExperimentRunner.call_heap c) (ExperimentRunner.call_next_state c)))
        calls.
Proof.
  eexists _, _, _, _, _, _, _. split; [vm_compute; reflexivity|].
  assert (∀ A (x : result A) y P, x = Ok y → (x = Ok y → P) → x = Ok y ∧ P) as K by auto.
  apply K; [vm_compute; reflexivity|].
  apply update_state_is_next_state.
Defined.

Lemma convergence_episode_set_once_witness :
  let r := ExperimentRunner.Runner "thompson"
             (TutorialEnvironment.Env (TutorialEnvironment.Profile 0.8 0.15 0.01) 0 0)
             (ExperimentRunner.Thompson ThompsonSamplingAgent.default)
             (ExperimentRunner.Metrics (replicate 19 59.5%Q) [] (np_zeros 4) [] [] None []) in
  let h := [mkState 0.5 0 0 1] in
  ∃ r' h' g',
    ExperimentRunner.experiment_body 20 r h ([] : tape) 19 = Ok (r', h', g')
    ∧ (∃ reward, ExperimentRunner.episode_rewards (ExperimentRunner.metrics r')
                 = ExperimentRunner.episode_rewards (ExperimentRunner.metrics r) ++ [reward])
    ∧ (ExperimentRunner.convergence_episode (ExperimentRunner.metrics r) = None →
       converged_on (ExperimentRunner.episode_rewards (ExperimentRunner.metrics r')) →
       ExperimentRunner.convergence_episode (ExperimentRunner.metrics r') = Some 19%Z)
    ∧ (ExperimentRunner.convergence_episode (ExperimentRunner.metrics r) = None →
       ¬ converged_on (ExperimentRunner.episode_rewards (ExperimentRunner.metrics r')) →
       ExperimentRunner.convergence_episode (ExperimentRunner.metrics r') = None)
    ∧ (∀ e, ExperimentRunner.convergence_episode (ExperimentRunner.metrics r) = Some e →
            ExperimentRunner.convergence_episode (ExperimentRunner.metrics r') = Some e)
    ∧ (∀ count next,
       ∃ r'' h'' g'',
         ExperimentRunner.experiment_loop 20 count next r' h' g' = Ok (r'', h'', g'')
         ∧ ∀ e, ExperimentRunner.convergence_episode (ExperimentRunner.metrics r') = Some e →
                ExperimentRunner.convergence_episode (ExperimentRunner.metrics r'') = Some e).
Proof.
  intros r h.
  apply (convergence_episode_set_once (G := tape) 20 r h [] 19).
  - split; reflexivity.
  - reflexivity.
  - lia.
Defined.

(** * Further properties of the environment *)

Section EnvironmentMore.
Import TutorialEnvironment.
Context `{RandomSource G}.

(** The three profiles have positive rates and a base probability in (0, 1]. *)
Lemma learner_profiles_rates (name : string) (p : profile_t) :
  learner_profiles !! name = Some p →
  (0 < learn_rate p)%Q ∧ (0 < fatigue_rate p)%Q ∧ (0 < base_prob p)%Q ∧ (base_prob p <= 1)%Q.
Proof.
  unfold learner_profiles. rewrite !list_to_map_cons, list_to_map_nil.
  intros E. repeat (apply lookup_insert_Some in E as [[_ <-] | [_ E]]; [simpl; lra|]).
  by rewrite lookup_empty in E.
Qed.

(** [step] with all its sequenced calls resolved. *)
Lemma step_spec (env : t) (h : heap) (g : G) (action : Z) :
  (0 ≤ action ≤ 3)%Z →
  ∃ p reward label,
    _calculate_success_probability env h action = Ok p
    ∧ _calculate_reward env h action (Qltb (np_random g).1 p) = Ok reward
    ∧ py_getitem difficulties action = Ok label
    ∧ let st := deref h (state env) in
      let success := Qltb (np_random g).1 p in
      let performance' :=
        if success then py_min 1.0 (performance st + learn_rate (profile env))
        else py_max 0.0 (performance st - learn_rate (profile env) / 2) in
      let st' := mkState performance' (if success then streak st + 1 else 0)%Z
                         (questions_answered st + 1) action in
      step env h g action
      = Ok (Env (profile env) (state env)
              (py_min 0.5 (fatigue env + fatigue_rate (profile env))),
            store h (state env) st', (np_random g).2,
            (state env, reward, bool_decide (20 ≤ questions_answered st + 1)%Z,
             Info success label (performance' - performance st) p)).
Proof.
  intros V. unfold step.
  destruct (success_probability_Ok env h action V) as (p & Ep & _).
  destruct (np_random g) as [u g1] eqn:Eg. simpl.
  destruct (calculate_reward_Ok env h action (Qltb u p) V) as (p' & rw & Ep' & Er & _).
  destruct (py_getitem_nonneg difficulties action) as (lbl & _ & El); [simpl; lia|].
  exists p, rw, lbl. rewrite Ep. simpl. rewrite Er. simpl. rewrite El. simpl. done.
Qed.

(** The environment's state object is updated in place: [step] returns the
    reference the environment holds, leaves every other object of the heap
    as it is, counts the question, records the action as the last
    difficulty, extends or resets the streak, and reports [done] exactly
    when 20 questions have been answered. *)
Theorem step_updates_state_in_place (env : t) (h : heap) (g : G) (action : Z) :
  (0 ≤ action ≤ 3)%Z →
  state env < length h →
  ∃ env' h' g' reward done info,
    step env h g action = Ok (env', h', g', (state env, reward, done, info))
    ∧ state env' = state env
    ∧ profile env' = profile env
    ∧ length h' = length h
    ∧ (∀ l, l ≠ state env → deref h' l = deref h l)
    ∧ questions_answered (deref h' (state env))
      = (questions_answered (deref h (state env)) + 1)%Z
    ∧ difficulty (deref h' (state env)) = action
    ∧ streak (deref h' (state env))
      = (if success info then streak (deref h (state env)) + 1 else 0)%Z
    ∧ (done = true ↔ (20 ≤ questions_answered (deref h' (state env)))%Z)
    ∧ performance_change info
      = (performance (deref h' (state env)) - performance (deref h (state env)))%Q.
Proof.
  intros V L. destruct (step_spec env h g action V) as (p & rw & lbl & _ & _ & _ & E).
  simpl in E. eexists _, _, _, _, _, _. split; [exact E|]. simpl.
  split; [done|]. split; [done|]. split; [apply length_insert|].
  split; [intros l N; unfold deref, store; by rewrite list_lookup_total_insert_ne|].
  unfold deref, store. rewrite list_lookup_total_insert_eq by done. simpl.
  split; [done|]. split; [done|]. split; [done|]. split; [|done].
  apply bool_decide_eq_true.
Qed.

(** Performance never leaves [0, 1]: a step from a performance in [0, 1],
    with a learning rate that is not negative, ends with a performance in
    [0, 1]; it does not decrease on a success and does not increase on a
    failure. *)
Theorem step_keeps_performance_in_unit_interval (env : t) (h : heap) (g : G) (action : Z) :
  (0 ≤ action ≤ 3)%Z →
  state env < length h →
  (0 <= learn_rate (profile env))%Q →
  (0 <= performance (deref h (state env)))%Q →
  (performance (deref h (state env)) <= 1)%Q →
  ∃ env' h' g' reward done info,
    step env h g action = Ok (env', h', g', (state env, reward, done, info))
    ∧ (0 <= performance (deref h' (state env)))%Q
    ∧ (performance (deref h' (state env)) <= 1)%Q
    ∧ (if success info
       then (performance (deref h (state env)) <= performance (deref h' (state env)))%Q
       else (performance (deref h' (state env)) <= performance (deref h (state env)))%Q).
Proof.
  intros V L Hr H0 H1. destruct (step_spec env h g action V) as (p & rw & lbl & _ & _ & _ & E).
  simpl in E. eexists _, _, _, _, _, _. split; [exact E|]. simpl.
  unfold deref, store. rewrite list_lookup_total_insert_eq by done. simpl.
  unfold deref in H0, H1.
  destruct (Qltb (np_random g).1 p).
  - destruct (py_min_spec 1.0 (performance (h !!! state env) + learn_rate (profile env)))
      as (m1 & m2 & [E' | E']); rewrite E' in *; repeat split; lra.
  - unfold Qdiv. change (/ 2)%Q with (1 # 2)%Q.
    destruct (py_max_spec 0.0 (performance (h !!! state env) - learn_rate (profile env) * (1 # 2)))
      as (m1 & m2 & [E' | E']); rewrite E' in *; repeat split; lra.
Qed.

(** Fatigue only grows, and never beyond 0.5. *)
Theorem step_fatigue_capped (env : t) (h : heap) (g : G) (action : Z) :
  (0 ≤ action ≤ 3)%Z →
  (0 <= fatigue_rate (profile env))%Q →
  (fatigue env <= 0.5)%Q →
  ∃ env' h' g' out,
    step env h g action = Ok (env', h', g', out)
    ∧ (fatigue env <= fatigue env')%Q
    ∧ (fatigue env' <= 0.5)%Q
    ∧ (fatigue env + fatigue_rate (profile env) <= 0.5 →
       fatigue env' == fatigue env + fatigue_rate (profile env))%Q.
Proof.
  intros V Hr Hf. destruct (step_spec env h g action V) as (p & rw & lbl & _ & _ & _ & E).
  simpl in E. eexists _, _, _, _. split; [exact E|]. simpl.
  destruct (py_min_spec 0.5 (fatigue env + fatigue_rate (profile env)))
    as (m1 & m2 & [E' | E']); rewrite E' in *; repeat split; intros; lra.
Qed.

(** Every reward lies between -5 and 10.5. *)
Theorem reward_bounds (env : t) (h : heap) (action : Z) (success : bool) :
  (0 ≤ action ≤ 3)%Z →
  ∃ reward,
    _calculate_reward env h action success = Ok reward
    ∧ (- (5) <= reward)%Q ∧ (reward <= 10.5)%Q
    ∧ (success = true → (0 < reward)%Q)
    ∧ (success = false → (reward < 0)%Q).
Proof.
  intros V. destruct (calculate_reward_Ok env h action success V) as (p & rw & _ & E & R).
  exists rw. split; [done|]. rewrite R. clear R E.
  unfold reward_base, reward_adjustment.
  apply valid_action_cases in V as [-> | [-> | [-> | ->]]]; destruct success;
    repeat case_bool_decide; try lia; rewrite ?andb_false_r, ?andb_true_r;
    repeat match goal with
    | |- context [if ?b then _ else _] => destruct b
    end; simpl; repeat split; intros; try done; lra.
Qed.

(** [reset] gives the environment a new state object with the default
    fields and clears the fatigue; the objects already in the heap, the
    state of the previous episode among them, are not touched. *)
Theorem reset_allocates_default_state (env : t) (h : heap) :
  ∃ env' h',
    reset env h = (env', h', length h)
    ∧ state env' = length h
    ∧ fatigue env' = 0%Q
    ∧ profile env' = profile env
    ∧ length h' = S (length h)
    ∧ deref h' (length h) = mkState 0.5 0 0 1
    ∧ (∀ l, l < length h → deref h' l = deref h l).
Proof.
  unfold reset, reset_with, alloc. eexists _, _. split; [done|]. simpl.
  split; [done|]. split; [done|]. split; [done|].
  split; [rewrite length_app; simpl; lia|].
  unfold deref. split.
  - rewrite lookup_total_app_r by done. by rewrite Nat.sub_diag.
  - intros l L. by rewrite lookup_total_app_l.
Qed.

End EnvironmentMore.

(** * Further properties of the policies *)

Lemma np_where_eq_from_first (i : Z) (x : Q) (v : list Q) (a : Z) (rest : list Z) :
  np_where_eq_from i x v = a :: rest →
  (i ≤ a)%Z
  ∧ (∃ y, v !! Z.to_nat (a - i) = Some y ∧ (y == x)%Q)
  ∧ (∀ j w, j < Z.to_nat (a - i) → v !! j = Some w → ¬ (w == x)%Q).
Proof.
  revert i. induction v as [|y v IH]; intros i; simpl; [done|].
  destruct (Qeq_bool y x) eqn:E.
  - intros [= <- _]. rewrite Z.sub_diag. simpl. split; [lia|]. split.
    + exists y. split; [done|]. by apply Qeq_bool_iff.
    + intros j w L. lia.
  - intros Ha. apply IH in Ha as (L & (z & Ez & Eq) & F). split; [lia|].
    replace (Z.to_nat (a - i)) with (S (Z.to_nat (a - (i + 1)))) by lia.
    split; [by exists z|].
    intros [|j] w Lj; simpl.
    + intros [= <-]. by apply Qeq_bool_neq.
    + apply F. lia.
Qed.

Lemma np_where_eq_from_lookup (i : Z) (x : Q) (v : list Q) (a : Z) :
  a ∈ np_where_eq_from i x v →
  ∃ y, v !! Z.to_nat (a - i) = Some y ∧ (y == x)%Q.
Proof.
  revert i. induction v as [|y v IH]; intros i; simpl; [set_solver|].
  destruct (Qeq_bool y x) eqn:E.
  - intros [-> | Ha]%elem_of_cons.
    + rewrite Z.sub_diag. exists y. split; [done|]. by apply Qeq_bool_iff.
    + pose proof (np_where_eq_from_range _ _ _ _ Ha) as R.
      apply IH in Ha as (z & Ez & Eq).
      replace (Z.to_nat (a - i)) with (S (Z.to_nat (a - (i + 1)))) by lia. by exists z.
  - intros Ha. pose proof (np_where_eq_from_range _ _ _ _ Ha) as R.
    apply IH in Ha as (z & Ez & Eq).
    replace (Z.to_nat (a - i)) with (S (Z.to_nat (a - (i + 1)))) by lia. by exists z.
Qed.

Lemma py_max_list_upper (v : list Q) (m : Q) :
  py_max_list v = Ok m → ∀ j w, v !! j = Some w → (w <= m)%Q.
Proof.
  destruct v as [|x l]; [done|]. intros [= <-] j w E.
  apply foldl_py_max_upper. apply list_elem_of_lookup_2 in E.
  apply elem_of_cons in E as [-> | E]; [left; lra | by right].
Qed.

Lemma foldl_Qplus_shift (l : list Q) (a : Q) :
  (foldl Qplus a l == a + py_sum l)%Q.
Proof.
  unfold py_sum. revert a. induction l as [|y l IH]; intros a; simpl; [ring|].
  rewrite (IH (a + y)%Q), (IH (0 + y)%Q). ring.
Qed.

Lemma py_sum_cons (x : Q) (l : list Q) : (py_sum (x :: l) == x + py_sum l)%Q.
Proof. unfold py_sum at 1. simpl. rewrite foldl_Qplus_shift. ring. Qed.

Lemma py_sum_insert (l : list Q) (i : nat) (x d : Q) :
  l !! i = Some x → (py_sum (<[i := (x + d)%Q]> l) == py_sum l + d)%Q.
Proof.
  revert i. induction l as [|y l IH]; intros [|i]; simpl; try done.
  - intros [= ->]. rewrite !py_sum_cons. ring.
  - intros E. rewrite !py_sum_cons, (IH i E). ring.
Qed.

Section PoliciesMore.
Context `{RandomSourceLaws G}.

(** ε-greedy selection: the action returned is one of the policy's
    actions and no stored value changes; when the policy explores the
    agent is left exactly as it was, and otherwise the action has a
    maximal value in the row of the state's key. *)
Theorem select_action_epsilon_greedy (ag : QLearningAgent.t) (h : heap) (g : G)
    (state : loc) :
  q_table_wf ag →
  0 < QLearningAgent.action_space ag →
  ∃ a ag' g',
    QLearningAgent.select_action ag h g state = Ok (a, ag', g')
    ∧ (0 ≤ a < Z.of_nat (QLearningAgent.action_space ag))%Z
    ∧ (∀ k, q_values ag' k = q_values ag k)
    ∧ (Qltb (np_random g).1 (QLearningAgent.epsilon ag) = true → ag' = ag)
    ∧ (Qltb (np_random g).1 (QLearningAgent.epsilon ag) = false →
       ∃ v, q_values ag (to_key (deref h state)) !! Z.to_nat a = Some v
            ∧ ∀ j w, q_values ag (to_key (deref h state)) !! j = Some w → (w <= v)%Q).
Proof.
  intros W Pos. unfold QLearningAgent.select_action.
  destruct (np_random g) as [u g1]. simpl.
  destruct (Qltb u (QLearningAgent.epsilon ag)).
  - rewrite bool_decide_eq_false_2 by lia.
    pose proof (randint_range (Z.of_nat (QLearningAgent.action_space ag)) g1) as R.
    destruct (np_randint _ g1) as [a g2]. simpl in R.
    exists a, ag, g2. split; [done|]. split; [lia|]. by repeat split.
  - set (key := to_key (deref h state)).
    destruct (q_row_spec ag key) as (ag1 & -> & T1 & S1 & _).
    pose proof (q_values_length ag key W) as Ln.
    destruct (best_actions_spec (q_values ag key)) as (m & Em & Ne & R).
    { intros E. rewrite E in Ln. simpl in Ln. lia. }
    rewrite Em. simpl. pose proof (choice_elem _ g1 Ne) as C.
    destruct (np_choice _ g1) as [a g2]. simpl in C.
    exists a, ag1, g2. split; [done|]. split; [apply R in C; lia|].
    split; [intros k; by eapply q_values_bind|]. split; [done|]. intros _.
    apply np_where_eq_from_lookup in C as (v & Ev & Eq). rewrite Z.sub_0_r in Ev.
    exists v. split; [done|]. intros j w Ew. rewrite Eq.
    by eapply py_max_list_upper.
Qed.

(** Sampling selection: the action returned is the first index at which
    the samples drawn from the Beta distributions are maximal. *)
Theorem thompson_select_first_maximum (ag : ThompsonSamplingAgent.t) (g : G) :
  ThompsonSamplingAgent.alpha ag ≠ [] →
  ∃ a g' v,
    ThompsonSamplingAgent.select_action ag g = Ok (a, g')
    ∧ g' = (np_beta (ThompsonSamplingAgent.alpha ag) (ThompsonSamplingAgent.beta ag) g).2
    ∧ (0 ≤ a < Z.of_nat (length (ThompsonSamplingAgent.alpha ag)))%Z
    ∧ let samples :=
        (np_beta (ThompsonSamplingAgent.alpha ag) (ThompsonSamplingAgent.beta ag) g).1 in
      samples !! Z.to_nat a = Some v
      ∧ (∀ j w, samples !! j = Some w → (w <= v)%Q)
      ∧ (∀ j w, j < Z.to_nat a → samples !! j = Some w → (w < v)%Q).
Proof.
  intros N. unfold ThompsonSamplingAgent.select_action.
  pose proof (beta_shape (ThompsonSamplingAgent.alpha ag) (ThompsonSamplingAgent.beta ag) g)
    as Sh.
  destruct (np_beta _ _ g) as [samples g1]. simpl in *.
  assert (samples ≠ []) as Ns.
  { intros E. rewrite E in Sh. destruct (ThompsonSamplingAgent.alpha ag); simpl in *; done. }
  destruct (best_actions_spec samples Ns) as (m & Em & Ne & R).
  unfold np_argmax. rewrite Em. simpl.
  destruct (np_where_eq samples m) as [|a rest] eqn:Ew; [done|].
  apply np_where_eq_from_first in Ew as (L & (v & Ev & Eq) & F). rewrite Z.sub_0_r in *.
  exists a, g1, v. split; [done|]. split; [done|].
  split; [apply lookup_lt_Some in Ev; lia|]. split; [done|]. split.
  - intros j w E. rewrite Eq. by eapply py_max_list_upper.
  - intros j w Lj E. pose proof (py_max_list_upper _ _ Em j w E) as U.
    specialize (F j w Lj E). rewrite Eq. apply Qle_lteq in U as [U | U]; done.
Qed.

End PoliciesMore.

(** The Beta parameters stay at least 1, and an update adds exactly 1 to
    their total. *)
Theorem thompson_counters_grow (ag : ThompsonSamplingAgent.t) (action : Z) (reward : Q) :
  (0 ≤ action < Z.of_nat (length (ThompsonSamplingAgent.alpha ag)))%Z →
  (action < Z.of_nat (length (ThompsonSamplingAgent.beta ag)))%Z →
  Forall (λ x, (1 <= x)%Q) (ThompsonSamplingAgent.alpha ag) →
  Forall (λ x, (1 <= x)%Q) (ThompsonSamplingAgent.beta ag) →
  ∃ ag',
    ThompsonSamplingAgent.update ag action reward = Ok ag'
    ∧ Forall (λ x, (1 <= x)%Q) (ThompsonSamplingAgent.alpha ag')
    ∧ Forall (λ x, (1 <= x)%Q) (ThompsonSamplingAgent.beta ag')
    ∧ length (ThompsonSamplingAgent.alpha ag') = length (ThompsonSamplingAgent.alpha ag)
    ∧ length (ThompsonSamplingAgent.beta ag') = length (ThompsonSamplingAgent.beta ag)
    ∧ (py_sum (ThompsonSamplingAgent.alpha ag') + py_sum (ThompsonSamplingAgent.beta ag')
       == py_sum (ThompsonSamplingAgent.alpha ag) + py_sum (ThompsonSamplingAgent.beta ag) + 1)%Q.
Proof.
  intros La Lb Fa Fb. unfold ThompsonSamplingAgent.update.
  destruct (Qltb 0 reward).
  - destruct (py_getitem_nonneg (ThompsonSamplingAgent.alpha ag) action) as (x & Ex & ->);
      [lia|].
    simpl. rewrite py_setitem_nonneg by lia. simpl. eexists. split; [done|]. simpl.
    split; [|split; [done|split; [apply length_insert|split; [done|]]]].
    + apply Forall_insert; [done|]. eapply Forall_lookup_1 in Fa; [|exact Ex]. simpl in Fa. lra.
    + rewrite (py_sum_insert _ _ _ _ Ex). ring.
  - destruct (py_getitem_nonneg (ThompsonSamplingAgent.beta ag) action) as (x & Ex & ->);
      [lia|].
    simpl. rewrite py_setitem_nonneg by lia. simpl. eexists. split; [done|]. simpl.
    split; [done|split; [|split; [done|split; [apply length_insert|]]]].
    + apply Forall_insert; [done|]. eapply Forall_lookup_1 in Fb; [|exact Ex]. simpl in Fb. lra.
    + rewrite (py_sum_insert _ _ _ _ Ex). ring.
Qed.

(** The hybrid policy forwards every update to both of its policies: the
    value table gets the key of [state] and the sampling policy's counters
    grow by 1 in total, whichever policy chose the action; the exploration
    rate is kept. *)
Theorem hybrid_update_forwards_to_both (ag : HybridAgent.t) (h : heap) (state : loc)
    (action : Z) (reward : Q) (next_state : loc) (done : bool) :
  qlearning_ok (HybridAgent.q_agent ag) →
  thompson_ok (HybridAgent.thompson_agent ag) →
  (0 ≤ action < 4)%Z →
  ∃ q' th',
    QLearningAgent.update (HybridAgent.q_agent ag) h state action reward next_state done
      = Ok q'
    ∧ ThompsonSamplingAgent.update (HybridAgent.thompson_agent ag) action reward = Ok th'
    ∧ HybridAgent.update ag h state action reward next_state done
      = Ok (HybridAgent.Agent q' th' (HybridAgent.exploration_rate ag)
              (HybridAgent.action_space ag))
    ∧ to_key (deref h state) ∈ dom (QLearningAgent.q_table q')
    ∧ (py_sum (ThompsonSamplingAgent.alpha th') + py_sum (ThompsonSamplingAgent.beta th')
       == py_sum (ThompsonSamplingAgent.alpha (HybridAgent.thompson_agent ag))
          + py_sum (ThompsonSamplingAgent.beta (HybridAgent.thompson_agent ag)) + 1)%Q.
Proof.
  intros [W S] [La Lb] V.
  destruct (update_spec (HybridAgent.q_agent ag) h state action reward next_state done W)
    as (q' & _ & _ & Eq & _ & _ & _ & _ & Dm & _); [lia|].
  unfold HybridAgent.update. rewrite Eq. simpl.
  unfold ThompsonSamplingAgent.update.
  destruct (Qltb 0 reward).
  - destruct (py_getitem_nonneg (ThompsonSamplingAgent.alpha (HybridAgent.thompson_agent ag))
                action) as (x & Ex & ->); [lia|].
    simpl. rewrite py_setitem_nonneg by lia. simpl.
    eexists _, _. split; [done|]. split; [done|]. split; [done|].
    split; [rewrite Dm; set_solver|].
    simpl. rewrite (py_sum_insert _ _ _ _ Ex). ring.
  - destruct (py_getitem_nonneg (ThompsonSamplingAgent.beta (HybridAgent.thompson_agent ag))
                action) as (x & Ex & ->); [lia|].
    simpl. rewrite py_setitem_nonneg by lia. simpl.
    eexists _, _. split; [done|]. split; [done|]. split; [done|].
    split; [rewrite Dm; set_solver|].
    simpl. rewrite (py_sum_insert _ _ _ _ Ex). ring.
Qed.

(** * Further properties of the runner *)

Lemma py_sum_setitem (l l' : list Q) (i : Z) (x d : Q) :
  py_getitem l i = Ok x → py_setitem l i (x + d)%Q = Ok l' →
  (py_sum l' == py_sum l + d)%Q ∧ length l' = length l.
Proof.
  unfold py_getitem, py_setitem. intros Eg Es.
  destruct (py_index (length l) i) as [n| |]; simpl in *; try done.
  destruct (l !! n) as [y|] eqn:E; [|done].
  injection Eg as ->. injection Es as <-.
  split; [by apply py_sum_insert | apply length_insert].
Qed.

Section RunnerMore.
Import ExperimentRunner.
Context `{RandomSourceLaws G}.

Lemma loop_body_counts (r : t) (h : heap) (g : G) (v : locals) r' h' g' v' c done :
  loop_body r h g v = Ok (r', h', g', v', c, done) →
  (py_sum (action_distribution (metrics r')) == py_sum (action_distribution (metrics r)) + 1)%Q
  ∧ (successes v ≤ successes v' ≤ successes v + 1)%Z
  ∧ length (actions_taken v') = S (length (actions_taken v))
  ∧ call_done c = done.
Proof.
  unfold loop_body. intros E.
  apply bind_Ok in E as ([[a ag] g1] & Ea & E).
  apply bind_Ok in E as ([[[env1 h1] g2] [[[l rw] d] info]] & Est & E).
  apply bind_Ok in E as (ag' & Eu & E).
  apply bind_Ok in E as (x & Ex & E). apply bind_Ok in E as (dist & Ed & E).
  injection E as <- <- <- <- <- <-. simpl.
  destruct (py_sum_setitem _ _ _ _ _ Ex Ed) as [Su _].
  split; [done|]. split; [destruct (TutorialEnvironment.success info); lia|].
  split; [rewrite length_app; simpl; lia | done].
Qed.

Lemma loop_counts (fuel : nat) (r : t) (h : heap) (g : G) (v : locals)
    (calls : list update_call) r' h' g' v' calls' :
  loop fuel r h g v calls = Ok (r', h', g', v', calls') →
  ∃ front last,
    calls' = calls ++ front ++ [last]
    ∧ Forall (λ c, call_done c = false) front
    ∧ call_done last = true
    ∧ (py_sum (action_distribution (metrics r'))
       == py_sum (action_distribution (metrics r)) + inject_Z (Z.of_nat (S (length front))))%Q
    ∧ (successes v ≤ successes v' ≤ successes v + Z.of_nat (S (length front)))%Z
    ∧ length (actions_taken v') = length (actions_taken v) + S (length front).
Proof.
  revert r h g v calls. induction fuel as [|fuel IH]; intros r h g v calls E; [done|].
  simpl in E. apply bind_Ok in E as ([[[[[r1 h1] g1] v1] c] d] & Eb & E).
  apply loop_body_counts in Eb as (Su & Sc & La & Dn).
  destruct d.
  - injection E as <- <- <- <- <-. exists [], c. simpl.
    split; [done|]. split; [done|]. split; [done|]. split; [done|]. split; lia.
  - apply IH in E as (front & last & -> & F & Dl & Su' & Sc' & La').
    exists (c :: front), last. split; [by rewrite <- app_assoc|].
    split; [by constructor|]. split; [done|]. split; [|split]; simpl length.
    + rewrite Su', Su. rewrite !Nat2Z.inj_succ, <- !Z.add_1_r, !inject_Z_plus. simpl. ring.
    + lia.
    + lia.
Qed.

(** An episode is exactly 20 questions: [run_episode] returns (20 units of
    fuel suffice), issues 20 updates with actions 0..3 of which only the
    last is terminal, and adds one entry to each per-episode history, the
    entry of the difficulty history being the 20 actions taken. *)
Theorem episode_runs_twenty_steps (fuel : nat) (r : t) (h : heap) (g : G) (n : Z) :
  agent_ok (agent r) →
  length (action_distribution (metrics r)) = 4 →
  20 ≤ fuel →
  ∃ r' h' g' reward calls front last,
    run_episode_calls fuel r h g n = Ok (r', h', g', reward, calls)
    ∧ run_episode fuel r h g n = Ok (r', h', g', reward)
    ∧ length calls = 20
    ∧ calls = front ++ [last]
    ∧ Forall (λ c, call_done c = false) front
    ∧ call_done last = true
    ∧ Forall (λ c, (0 ≤ call_action c < 4)%Z) calls
    ∧ questions_answered (deref h' (TutorialEnvironment.state (env r'))) = 20%Z
    ∧ difficulty_history (metrics r') = difficulty_history (metrics r) ++ [call_action <$> calls]
    ∧ performance_history (metrics r')
      = performance_history (metrics r)
        ++ [performance (deref h' (TutorialEnvironment.state (env r')))]
    ∧ q_table_sizes (metrics r') = q_table_sizes (metrics r) ++ [get_q_table_size (agent r')]
    ∧ length (success_rates (metrics r')) = S (length (success_rates (metrics r)))
    ∧ episode_rewards (metrics r') = episode_rewards (metrics r).
Proof.
  intros Ha Ld Hf.
  destruct (run_episode_calls_total fuel r h g n Ha Ld Hf)
    as (r' & h' & g' & rw & calls & E & Ln & F & Hok).
  pose proof (run_episode_calls_inv _ _ _ _ _ _ _ _ _ _ E)
    as (_ & M1 & _ & Lh & St & (rate & M3) & M4 & M5 & M6).
  assert (∃ front last, calls = front ++ [last]
            ∧ Forall (λ c, call_done c = false) front ∧ call_done last = true
            ∧ questions_answered (deref h' (TutorialEnvironment.state (env r'))) = 20%Z)
    as (front & last & -> & Ff & Dl & Q20).
  { revert E. unfold run_episode_calls.
    unfold TutorialEnvironment.reset, TutorialEnvironment.reset_with, alloc.
    intros E. apply bind_Ok in E as ([[[[r1 h1] g1] v1] calls1] & El & E).
    injection E as <- <- <- <- <-.
    pose proof El as El'. apply loop_counts in El' as (front & last & -> & Ff & Dl & _).
    exists front, last. split; [done|]. split; [done|]. split; [done|].
    destruct (loop_total fuel
                (Runner (agent_type r)
                   (TutorialEnvironment.Env (TutorialEnvironment.profile (env r)) (length h) 0)
                   (agent r) (metrics r))
                (h ++ [mkState 0.5 0 0 1]) g (Locals (length h) 0 0 []) [])
      as (r2 & h2 & g2 & v2 & new & E2 & _ & _ & _ & Q2).
    - split; [done|]. split; [done|]. simpl. rewrite length_app. simpl. lia.
    - done.
    - simpl. unfold deref. rewrite lookup_total_app_r by done.
      rewrite Nat.sub_diag. simpl. lia.
    - simpl. unfold deref. rewrite lookup_total_app_r by done.
      rewrite Nat.sub_diag. simpl. lia.
    - rewrite El in E2. injection E2 as <- <- <- <- _.
      apply loop_inv in El as (_ & Sv & _); [|done]. simpl. by rewrite <- Sv. }
  exists r', h', g', rw, (front ++ [last]), front, last.
  split; [done|]. split; [unfold run_episode; by rewrite E|].
  split; [done|]. split; [done|]. split; [done|]. split; [done|]. split; [done|].
  split; [done|]. split; [done|]. split; [by rewrite M4, St|]. split; [done|].
  split; [rewrite M3, length_app; simpl; lia | done].
Qed.

(** The action histogram counts every question: an episode adds 20 to its
    total. *)
Theorem episode_adds_twenty_to_action_distribution (fuel : nat) (r : t) (h : heap) (g : G)
    (n : Z) :
  agent_ok (agent r) →
  length (action_distribution (metrics r)) = 4 →
  20 ≤ fuel →
  ∃ r' h' g' reward,
    run_episode fuel r h g n = Ok (r', h', g', reward)
    ∧ length (action_distribution (metrics r')) = 4
    ∧ (py_sum (action_distribution (metrics r'))
       == py_sum (action_distribution (metrics r)) + 20)%Q.
Proof.
  intros Ha Ld Hf.
  destruct (run_episode_calls_total fuel r h g n Ha Ld Hf)
    as (r' & h' & g' & rw & calls & E & Ln & F & (_ & Ld' & _)).
  exists r', h', g', rw. split; [unfold run_episode; by rewrite E|]. split; [done|].
  revert E. unfold run_episode_calls.
  unfold TutorialEnvironment.reset, TutorialEnvironment.reset_with, alloc.
  intros E. apply bind_Ok in E as ([[[[r1 h1] g1] v1] calls1] & El & E).
  injection E as <- <- <- <- <-.
  apply loop_counts in El as (front & last & -> & _ & _ & Su & _). simpl in *.
  rewrite Su. rewrite length_app in Ln. simpl in Ln.
  replace (S (length front)) with 20 by lia. simpl. ring.
Qed.

(** The success rate recorded for an episode lies between 0 and 1. *)
Theorem episode_success_rate_in_unit_interval (fuel : nat) (r : t) (h : heap) (g : G)
    (n : Z) :
  agent_ok (agent r) →
  length (action_distribution (metrics r)) = 4 →
  20 ≤ fuel →
  ∃ r' h' g' reward rate,
    run_episode fuel r h g n = Ok (r', h', g', reward)
    ∧ success_rates (metrics r') = success_rates (metrics r) ++ [rate]
    ∧ (0 <= rate)%Q ∧ (rate <= 1)%Q.
Proof.
  intros Ha Ld Hf.
  destruct (run_episode_calls_total fuel r h g n Ha Ld Hf)
    as (r' & h' & g' & rw & calls & E & Ln & F & _).
  revert E. unfold run_episode, run_episode_calls.
  unfold TutorialEnvironment.reset, TutorialEnvironment.reset_with, alloc.
  intros E. rewrite E. simpl.
  apply bind_Ok in E as ([[[[r1 h1] g1] v1] calls1] & El & E).
  injection E as <- <- <- <- <-.
  pose proof El as El'.
  apply loop_counts in El' as (front & last & -> & _ & _ & _ & Sc & La).
  apply loop_inv in El as (_ & _ & _ & _ & _ & _ & M2 & _); [|done].
  simpl in *. eexists _, _, _, _, _. split; [done|]. simpl. rewrite M2.
  split; [done|].
  destruct (actions_taken v1) as [|a l] eqn:Ea; [simpl in La; lia|].
  rewrite La.
  set (k := S (length front)) in *.
  assert (0 < inject_Z (Z.of_nat k))%Q as Pk.
  { change 0%Q with (inject_Z 0). rewrite <- Zlt_Qlt. lia. }
  split.
  - apply Qle_shift_div_l; [done|]. rewrite Qmult_0_l.
    change 0%Q with (inject_Z 0). rewrite <- Zle_Qle. lia.
  - apply Qle_shift_div_r; [done|]. rewrite Qmult_1_l. rewrite <- Zle_Qle. lia.
Qed.

End RunnerMore.

(** ** Convergence over a whole experiment *)

Section ConvergenceMore.
Import ExperimentRunner.
Context `{RandomSourceLaws G} `{Binary64}.
Variable np_sqrt : Q → Q.

Lemma check_convergence_converged_on (r : t) :
  _check_convergence r 10 0.5 = true ↔ converged_on (episode_rewards (metrics r)).
Proof. apply check_convergence_spec. Qed.

Lemma experiment_loop_rewards (fuel count : nat) (episode : Z) (r : t) (h : heap) (g : G)
    r' h' g' :
  experiment_loop fuel count episode r h g = Ok (r', h', g') →
  ∃ suffix, episode_rewards (metrics r') = episode_rewards (metrics r) ++ suffix
            ∧ length suffix = count.
Proof.
  revert episode r h g. induction count as [|count IH]; intros episode r h g E.
  - injection E as <- <- <-. exists []. by rewrite app_nil_r.
  - simpl in E. apply bind_Ok in E as ([[r1 h1] g1] & Eb & E).
    apply experiment_body_inv in Eb as (_ & (rw & M1) & _).
    apply IH in E as (suffix & -> & Ls). exists (rw :: suffix).
    rewrite M1, <- app_assoc. split; [done | simpl; lia].
Qed.

Lemma experiment_loop_first (fuel count : nat) (episode : Z) (r : t) (h : heap) (g : G)
    r' h' g' :
  experiment_loop fuel count episode r h g = Ok (r', h', g') →
  convergence_episode (metrics r) = None →
  Z.of_nat (length (episode_rewards (metrics r))) = episode →
  match convergence_episode (metrics r') with
  | Some e =>
      (episode ≤ e < episode + Z.of_nat count)%Z
      ∧ converged_on (take (S (Z.to_nat e)) (episode_rewards (metrics r')))
      ∧ ∀ i, Z.to_nat episode ≤ i < Z.to_nat e →
             ¬ converged_on (take (S i) (episode_rewards (metrics r')))
  | None =>
      ∀ i, Z.to_nat episode ≤ i < Z.to_nat episode + count →
           ¬ converged_on (take (S i) (episode_rewards (metrics r')))
  end.
Proof.
  revert episode r h g. induction count as [|count IH]; intros episode r h g E N L.
  - injection E as <- <- <-. rewrite N. intros i ?. lia.
  - simpl in E. apply bind_Ok in E as ([[r1 h1] g1] & Eb & E).
    apply experiment_body_inv in Eb as (_ & (rw & M1) & Mc). rewrite N in Mc.
    pose proof (experiment_loop_rewards _ _ _ _ _ _ _ _ _ E) as (suffix & Er & Ls).
    assert (length (episode_rewards (metrics r1)) = S (Z.to_nat episode)) as L1.
    { rewrite M1, length_app. simpl. lia. }
    assert (take (S (Z.to_nat episode)) (episode_rewards (metrics r'))
            = episode_rewards (metrics r1)) as T1.
    { rewrite Er, <- L1. apply take_app_length. }
    destruct (_check_convergence r1 10 0.5) eqn:Ec.
    + apply experiment_loop_inv in E as (_ & _ & K). rewrite (K _ Mc).
      split; [lia|]. split; [rewrite T1; by apply check_convergence_converged_on|].
      intros i ?. lia.
    + assert (¬ converged_on (episode_rewards (metrics r1))) as Nc.
      { intros C. apply check_convergence_converged_on in C. congruence. }
      apply IH in E; [|done | lia].
      destruct (convergence_episode (metrics r')) as [e|].
      * destruct E as (Le & Ce & Fe). split; [lia|]. split; [done|].
        intros i Li. destruct (decide (i = Z.to_nat episode)) as [->|Ni].
        -- by rewrite T1.
        -- apply Fe. lia.
      * intros i Li. destruct (decide (i = Z.to_nat episode)) as [->|Ni].
        -- by rewrite T1.
        -- apply E. lia.
Qed.

(** Over an experiment of [n >= 1] episodes started on a runner without
    history, the convergence episode reported is the first episode index
    after which the convergence test, evaluated in binary64 as the code
    does, holds on the rewards so far, and none if it never holds; hence it
    is never below 19. *)
Theorem convergence_is_first_stable_episode (fuel : nat) (r : t) (h : heap) (g : G)
    (n : Z) (time : Q) :
  agent_ok (agent r) →
  length (action_distribution (metrics r)) = 4 →
  episode_rewards (metrics r) = [] →
  convergence_episode (metrics r) = None →
  20 ≤ fuel →
  (1 ≤ n)%Z →
  ∃ r' h' g' rep,
    run_experiment np_sqrt fuel r h g n time = Ok (r', h', g', rep)
    ∧ length (episode_rewards (metrics r')) = Z.to_nat n
    ∧ match report_convergence_episode rep with
      | Some e =>
          (19 ≤ e < n)%Z
          ∧ converged_on (take (S (Z.to_nat e)) (episode_rewards (metrics r')))
          ∧ ∀ i, i < Z.to_nat e →
                 ¬ converged_on (take (S i) (episode_rewards (metrics r')))
      | None =>
          ∀ i, i < Z.to_nat n → ¬ converged_on (take (S i) (episode_rewards (metrics r')))
      end.
Proof.
  intros Ha Ld Er Ec Hf Hn. unfold run_experiment.
  destruct (experiment_loop_total fuel (Z.to_nat n) 0 r h g Ha Ld Hf)
    as (r' & h' & g' & E & _).
  rewrite E. simpl.
  pose proof (experiment_loop_inv _ _ _ _ _ _ _ _ _ E) as (_ & Ln & _).
  rewrite Er in Ln. simpl in Ln.
  destruct (generate_report_Ok np_sqrt r' time)
    as (_ & _ & _ & _ & _ & _ & _ & _ & rep & -> & _ & _ & _ & _ & _ & _ & _ & Rc & _).
  { intros E'. rewrite E' in Ln. simpl in Ln. lia. }
  simpl. exists r', h', g', rep. split; [done|]. split; [done|]. rewrite Rc.
  apply experiment_loop_first in E; [|done | by rewrite Er].
  destruct (convergence_episode (metrics r')) as [e|].
  - destruct E as (Le & Ce & Fe). split; [|split; [done|]].
    + destruct Ce as [C20 _]. rewrite length_take in C20. lia.
    + intros i Li. apply Fe. simpl. lia.
  - intros i Li. apply E. simpl. lia.
Qed.

End ConvergenceMore.

(** ** The statistics of the report *)

Lemma foldl_py_min_elem (x : Q) (l : list Q) : foldl py_min x l ∈ x :: l.
Proof.
  revert x. induction l as [|y l IH]; intros x; simpl; [set_solver|].
  destruct (py_min_spec x y) as (_ & _ & [E | E]); rewrite E.
  - specialize (IH x). set_solver.
  - specialize (IH y). set_solver.
Qed.

Lemma foldl_py_min_lower (x : Q) (l : list Q) (y : Q) :
  (x <= y)%Q ∨ y ∈ l → (foldl py_min x l <= y)%Q.
Proof.
  revert x. induction l as [|z l IH]; intros x Hy; simpl.
  - destruct Hy as [Hy | Hy]; [done | set_solver].
  - destruct (py_min_spec x z) as (M1 & M2 & _). apply IH.
    destruct Hy as [Hy | [-> | Hy]%elem_of_cons]; [left; lra | by left | by right].
Qed.

Section ReportMore.
Import ExperimentRunner.
Variable np_sqrt : Q → Q.

(** With at least one recorded episode the report is produced; its maximum
    and minimum rewards are recorded rewards that bound all the others, its
    total is their sum and its average their mean; the final performance
    and table size are the last ones recorded (0 if none was); the average
    over the last 10 episodes is the plain average when fewer than 10
    episodes were recorded. *)
Theorem report_statistics (r : t) (time : Q) :
  episode_rewards (metrics r) ≠ [] →
  ∃ rep,
    _generate_report np_sqrt r time = Ok rep
    ∧ max_reward rep ∈ episode_rewards (metrics r)
    ∧ min_reward rep ∈ episode_rewards (metrics r)
    ∧ (∀ x, x ∈ episode_rewards (metrics r) →
            (min_reward rep <= x)%Q ∧ (x <= max_reward rep)%Q)
    ∧ total_episodes rep = Z.of_nat (length (episode_rewards (metrics r)))
    ∧ total_reward rep = py_sum (episode_rewards (metrics r))
    ∧ avg_reward rep
      = Fin (py_sum (episode_rewards (metrics r))
             / inject_Z (Z.of_nat (length (episode_rewards (metrics r)))))%Q
    ∧ final_performance rep = default 0%Q (last (performance_history (metrics r)))
    ∧ final_q_table_size rep = default 0%Z (last (q_table_sizes (metrics r)))
    ∧ report_convergence_episode rep = convergence_episode (metrics r)
    ∧ report_action_distribution rep = action_distribution (metrics r)
    ∧ (length (episode_rewards (metrics r)) < 10 → final_10_avg_reward rep = avg_reward rep)
    ∧ (10 ≤ length (episode_rewards (metrics r)) →
       final_10_avg_reward rep
       = Fin (mean (drop (length (episode_rewards (metrics r)) - 10)
                      (episode_rewards (metrics r))))).
Proof.
  intros N.
  destruct (generate_report_Ok np_sqrt r time N)
    as (mx & mn & perf & size & Emx & Emn & Ep & Es & rep & E & Rmx & Rmn & Fp & Fs & Te & Tr
        & Av & Rc & Rd & _).
  exists rep. split; [done|]. rewrite Rmx, Rmn, Fp, Fs, Ep, Es, Te, Tr, Av, Rc, Rd.
  destruct (episode_rewards (metrics r)) as [|x l] eqn:Er; [done|].
  simpl in Emx, Emn. injection Emx as <-. injection Emn as <-.
  split; [apply foldl_py_max_elem|]. split; [apply foldl_py_min_elem|].
  split.
  { intros y Hy. split.
    - apply foldl_py_min_lower. apply elem_of_cons in Hy as [-> | Hy]; [left; lra | by right].
    - apply foldl_py_max_upper. apply elem_of_cons in Hy as [-> | Hy]; [left; lra | by right]. }
  split; [done|]. split; [done|]. split; [done|]. split; [done|]. split; [done|].
  split; [done|]. split; [done|].
  revert E. unfold _generate_report. rewrite Er. intros E.
  apply bind_Ok in E as (mx & _ & E). apply bind_Ok in E as (mn & _ & E).
  apply bind_Ok in E as (fp & _ & E). apply bind_Ok in E as (fs & _ & E).
  injection E as <-. simpl final_10_avg_reward. simpl avg_reward.
  split.
  - intros L. rewrite bool_decide_eq_false_2; [done|]. cbn [length] in *. lia.
  - intros L. rewrite bool_decide_eq_true_2 by (cbn [length] in *; lia).
    rewrite (py_slice_suffix _ 10) by lia. change (Z.to_nat 10) with 10.
    apply np_mean_nonempty. intros E'. apply (f_equal length) in E'.
    rewrite length_drop in E'. cbn [length] in *. lia.
Qed.

End ReportMore.

(** * The front end *)

Section MainMore.
Import Main.
Variable int : string → option Z.

(** A line that [get_user_choice] accepts for [k] options. *)
Let accepted (k : nat) (line : string) : Prop :=
  ∃ choice, int line = Some choice ∧ (1 ≤ choice ≤ Z.of_nat k)%Z.

Lemma get_user_choice_spec (options : list string) (stdin : list string) :
  match get_user_choice int options stdin with
  | Answered c rest =>
      (0 ≤ c < Z.of_nat (length options))%Z
      ∧ ∃ skipped line,
          stdin = skipped ++ line :: rest
          ∧ int line = Some (c + 1)%Z
          ∧ Forall (λ l, ¬ accepted (length options) l) skipped
  | EndOfInput => Forall (λ l, ¬ accepted (length options) l) stdin
  | Raised _ => False
  end.
Proof.
  induction stdin as [|line rest IH]; simpl; [done|].
  destruct (int line) as [choice|] eqn:E.
  - case_bool_decide as L.
    + split; [lia|]. exists [], line. split; [done|]. split; [|done].
      rewrite E. f_equal. lia.
    + assert (¬ accepted (length options) line) as Na.
      { intros (c & Ec & Lc). rewrite E in Ec. injection Ec as <-. done. }
      destruct (get_user_choice int options rest) as [c rest'| |]; [|by constructor|done].
      destruct IH as (Lc & skipped & l & -> & El & F). split; [done|].
      exists (line :: skipped), l. split; [done|]. split; [done | by constructor].
  - assert (¬ accepted (length options) line) as Na.
    { intros (c & Ec & Lc). rewrite E in Ec. done. }
    destruct (get_user_choice int options rest) as [c rest'| |]; [|by constructor|done].
    destruct IH as (Lc & skipped & l & -> & El & F). split; [done|].
    exists (line :: skipped), l. split; [done|]. split; [done | by constructor].
Qed.

(** [get_user_choice] returns the index of the first line that is a
    number between 1 and the number of options, having read everything up
    to that line; the index is a valid index of the options. *)
Theorem get_user_choice_first_valid (options stdin : list string) (c : Z)
    (rest : list string) :
  get_user_choice int options stdin = Answered c rest →
  (0 ≤ c < Z.of_nat (length options))%Z
  ∧ ∃ skipped line,
      stdin = skipped ++ line :: rest
      ∧ int line = Some (c + 1)%Z
      ∧ Forall (λ l, ∀ choice, int l = Some choice →
                     ¬ (1 ≤ choice ≤ Z.of_nat (length options))%Z) skipped.
Proof.
  intros E. pose proof (get_user_choice_spec options stdin) as S. rewrite E in S.
  destruct S as (L & skipped & line & -> & El & F). split; [done|].
  exists skipped, line. split; [done|]. split; [done|].
  eapply Forall_impl; [exact F|]. intros l Na choice Ec Lc. apply Na. by exists choice.
Qed.

Lemma ask_n_episodes_spec (stdin : list string) :
  match ask_n_episodes int stdin with
  | Answered n rest => (10 ≤ n ≤ 500)%Z ∧ ∃ used, stdin = used ++ rest ∧ used ≠ []
  | EndOfInput => True
  | Raised _ => False
  end.
Proof.
  induction stdin as [|line rest IH]; simpl; [done|].
  destruct (int line) as [n|] eqn:E.
  - case_bool_decide as L.
    + split; [done|]. by exists [line].
    + destruct (ask_n_episodes int rest) as [n' rest'| |]; [|done..].
      destruct IH as (Ln & used & -> & _). split; [done|]. by exists (line :: used).
  - destruct (ask_n_episodes int rest) as [n' rest'| |]; [|done..].
    destruct IH as (Ln & used & -> & _). split; [done|]. by exists (line :: used).
Qed.

Section Experiment.
Context `{RandomSourceLaws G} `{Binary64}.
Variable np_sqrt : Q → Q.

(** Whatever is typed, [main] builds its runner from a valid
    configuration: a policy name of the runner, a profile of the
    environment and between 10 and 500 episodes.  The constructor then
    succeeds with the policy asked for, and the experiment returns a report
    of that many episodes. *)
Theorem main_configuration_valid (stdin rest : list string) (algorithm profile : string)
    (n_episodes : Z) :
  configuration int stdin = Answered (algorithm, profile, n_episodes) rest →
  algorithm ∈ ["qlearning"; "thompson"; "hybrid"]
  ∧ profile ∈ ["fast"; "average"; "slow"]
  ∧ (10 ≤ n_episodes ≤ 500)%Z
  ∧ ∀ (h : heap) (g : G) (fuel : nat) (time : Q), 20 ≤ fuel →
      ∃ r h0 r' h' g' rep,
        ExperimentRunner.__init__ algorithm profile h = Ok (r, h0)
        ∧ match ExperimentRunner.agent r with
          | ExperimentRunner.QLearning _ => algorithm = "qlearning"
          | ExperimentRunner.Thompson _ => algorithm = "thompson"
          | ExperimentRunner.Hybrid _ => algorithm = "hybrid"
          end
        ∧ ExperimentRunner.run_experiment np_sqrt fuel r h0 g n_episodes time
          = Ok (r', h', g', rep)
        ∧ ExperimentRunner.total_episodes rep = n_episodes.
Proof.
  unfold configuration. intros E.
  pose proof (get_user_choice_spec algorithms stdin) as Sa.
  destruct (get_user_choice int algorithms stdin) as [ac s1| |]; [|done..].
  destruct Sa as (La & _). simpl in La.
  destruct (py_getitem algo_map ac) as [alg| |] eqn:Ea; [|done..].
  pose proof (get_user_choice_spec profiles s1) as Sp.
  destruct (get_user_choice int profiles s1) as [pc s2| |]; [|done..].
  destruct Sp as (Lp & _). simpl in Lp.
  destruct (py_getitem profile_map pc) as [prof| |] eqn:Ep; [|done..].
  pose proof (ask_n_episodes_spec s2) as Sn.
  destruct (ask_n_episodes int s2) as [n s3| |]; [|done..].
  destruct Sn as (Ln & _). destruct s3 as [|l s4]; [done|].
  injection E as -> -> -> ->.
  assert (algorithm ∈ ["qlearning"; "thompson"; "hybrid"]) as Ia.
  { assert (ac = 0 ∨ ac = 1 ∨ ac = 2)%Z as [-> | [-> | ->]] by lia;
      vm_compute in Ea; injection Ea as <-; set_solver. }
  assert (profile ∈ ["fast"; "average"; "slow"]) as Ip.
  { assert (pc = 0 ∨ pc = 1 ∨ pc = 2)%Z as [-> | [-> | ->]] by lia;
      vm_compute in Ep; injection Ep as <-; set_solver. }
  split; [done|]. split; [done|]. split; [done|].
  intros h g fuel time Hf.
  pose proof (init_spec algorithm profile h) as I.
  destruct (learner_profiles_known profile) as [p Kp]; [set_solver|].
  rewrite Kp in I.
  match type of I with
  | _ = Ok (?r0, ?h0) =>
      destruct (run_experiment_total np_sqrt fuel r0 h0 g n_episodes time)
        as (r' & h' & g' & rep & Er & Te & _)
  end; [apply default_agents_ok | done | done | lia |].
  eexists _, _, r', h', g', rep. split; [exact I|]. split; [|split; [exact Er|]].
  - simpl. repeat case_bool_decide; try done. set_solver.
  - rewrite Te. simpl. lia.
Qed.

End Experiment.

End MainMore.

(** * The discretized key *)

Lemma pretty_N_char_underscore (x : N) : pretty_N_char x ≠ "_"%char.
Proof. unfold pretty_N_char. repeat case_match; discriminate. Qed.

Lemma underscore_free_pretty_N_go (x : N) (s : string) :
  underscore_free s → underscore_free (pretty_N_go x s).
Proof.
  revert s. induction (N.lt_wf_0 x) as [x _ IH]; intros s Hs.
  destruct (decide (x = 0)%N) as [->|Nx].
  - by rewrite pretty_N_go_0.
  - rewrite pretty_N_go_step by lia. apply IH.
    + apply N.div_lt; lia.
    + split; [apply pretty_N_char_underscore | done].
Qed.

Lemma underscore_free_pretty_Z (z : Z) : underscore_free (pretty z).
Proof.
  destruct z as [|x|x]; unfold pretty, pretty_Z, pretty, pretty_positive, pretty, pretty_N.
  - simpl. split; [discriminate | done].
  - rewrite decide_False by done. by apply underscore_free_pretty_N_go.
  - rewrite decide_False by done. simpl. split; [discriminate|].
    by apply underscore_free_pretty_N_go.
Qed.

Lemma underscore_split (a a' b b' : string) :
  underscore_free a → underscore_free a' →
  a +:+ "_" +:+ b = a' +:+ "_" +:+ b' → a = a' ∧ b = b'.
Proof.
  revert a'. induction a as [|c a IH]; intros [|c' a'] Ha Ha' E; simpl in *.
  - injection E as E. by subst.
  - injection E as E1 E2. destruct Ha' as [Ha' _]. by subst.
  - injection E as E1 E2. destruct Ha as [Ha _]. by subst.
  - injection E as E1 E2. destruct Ha as [_ Ha], Ha' as [_ Ha'].
    destruct (IH a' Ha Ha' E2) as [E3 E4]. by subst.
Qed.

(** The key identifies the triple of buckets: two states have the same key
    exactly when they agree on the performance bucket, on the streak
    bucket and on the last difficulty. *)
Theorem to_key_injective (s1 s2 : State) :
  to_key s1 = to_key s2 ↔
  py_int (performance s1 * 10) = py_int (performance s2 * 10)
  ∧ Z.min (streak s1) 5 = Z.min (streak s2) 5
  ∧ difficulty s1 = difficulty s2.
Proof.
  unfold to_key. split.
  - intros E.
    apply underscore_split in E as [E1 E]; [|apply underscore_free_pretty_Z..].
    apply underscore_split in E as [E2 E3]; [|apply underscore_free_pretty_Z..].
    apply (inj pretty) in E1. apply (inj pretty) in E2. apply (inj pretty) in E3. done.
  - intros (-> & -> & ->). done.
Qed.

(** The performance bucket of a performance in [0, 1] is one of 0..10, and
    the streak bucket of a streak that is not negative is one of 0..5. *)
Theorem key_buckets_range (s : State) :
  (0 <= performance s)%Q → (performance s <= 1)%Q → (0 ≤ streak s)%Z →
  (0 ≤ py_int (performance s * 10) ≤ 10)%Z ∧ (0 ≤ Z.min (streak s) 5 ≤ 5)%Z.
Proof.
  intros H0 H1 Hs. split; [|lia].
  destruct (performance s) as [n d]. unfold py_int, Qle in *. simpl in *.
  assert (0 ≤ n * 10)%Z by lia. assert (n * 10 ≤ 10 * Z.pos (d * 1))%Z by lia.
  rewrite Z.quot_div_nonneg by lia. split.
  - apply Z.div_pos; lia.
  - apply Z.div_le_upper_bound; lia.
Qed.

(** * Instances of the further properties *)

Lemma step_updates_state_in_place_witness :
  let env := TutorialEnvironment.Env (TutorialEnvironment.Profile 0.6 0.08 0.02) 1 0.1 in
  let h := [mkState 0.9 4 20 3; mkState 0.5 2 19 1] in
  ∃ env' h' g' reward done info,
    TutorialEnvironment.step env h ([0.99] : tape)%Q 2
      = Ok (env', h', g', (TutorialEnvironment.state env, reward, done, info))
    ∧ TutorialEnvironment.state env' = TutorialEnvironment.state env
    ∧ TutorialEnvironment.profile env' = TutorialEnvironment.profile env
    ∧ length h' = length h
    ∧ (∀ l, l ≠ TutorialEnvironment.state env → deref h' l = deref h l)
    ∧ questions_answered (deref h' (TutorialEnvironment.state env))
      = (questions_answered (deref h (TutorialEnvironment.state env)) + 1)%Z
    ∧ difficulty (deref h' (TutorialEnvironment.state env)) = 2%Z
    ∧ streak (deref h' (TutorialEnvironment.state env))
      = (if TutorialEnvironment.success info
         then streak (deref h (TutorialEnvironment.state env)) + 1 else 0)%Z
    ∧ (done = true ↔ (20 ≤ questions_answered (deref h' (TutorialEnvironment.state env)))%Z)
    ∧ TutorialEnvironment.performance_change info
      = (performance (deref h' (TutorialEnvironment.state env))
         - performance (deref h (TutorialEnvironment.state env)))%Q.
Proof.
  intros env h. apply (step_updates_state_in_place (G := tape) env h); simpl; lia.
Defined.

Lemma step_keeps_performance_in_unit_interval_witness :
  let env := TutorialEnvironment.Env (TutorialEnvironment.Profile 0.8 0.15 0.01) 0 0 in
  let h := [mkState 0.95 1 4 0] in
  ∃ env' h' g' reward done info,
    TutorialEnvironment.step env h ([0.2] : tape)%Q 0
      = Ok (env', h', g', (TutorialEnvironment.state env, reward, done, info))
    ∧ (0 <= performance (deref h' (TutorialEnvironment.state env)))%Q
    ∧ (performance (deref h' (TutorialEnvironment.state env)) <= 1)%Q
    ∧ (if TutorialEnvironment.success info
       then (performance (deref h (TutorialEnvironment.state env))
             <= performance (deref h' (TutorialEnvironment.state env)))%Q
       else (performance (deref h' (TutorialEnvironment.state env))
             <= performance (deref h (TutorialEnvironment.state env)))%Q).
Proof.
  intros env h.
  apply (step_keeps_performance_in_unit_interval (G := tape) env h);
    simpl; try lia; unfold Qle; simpl; lia.
Defined.

Lemma step_fatigue_capped_witness :
  let env := TutorialEnvironment.Env (TutorialEnvironment.Profile 0.4 0.04 0.03) 0 0.49 in
  let h := [mkState 0.3 0 17 2] in
  ∃ env' h' g' out,
    TutorialEnvironment.step env h ([0.2] : tape)%Q 1 = Ok (env', h', g', out)
    ∧ (TutorialEnvironment.fatigue env <= TutorialEnvironment.fatigue env')%Q
    ∧ (TutorialEnvironment.fatigue env' <= 0.5)%Q
    ∧ (TutorialEnvironment.fatigue env
       + TutorialEnvironment.fatigue_rate (TutorialEnvironment.profile env) <= 0.5 →
       TutorialEnvironment.fatigue env'
       == TutorialEnvironment.fatigue env
          + TutorialEnvironment.fatigue_rate (TutorialEnvironment.profile env))%Q.
Proof.
  intros env h.
  apply (step_fatigue_capped (G := tape) env h); simpl; try lia; unfold Qle; simpl; lia.
Defined.

Lemma reward_bounds_witness :
  ∃ reward,
    TutorialEnvironment._calculate_reward
      (TutorialEnvironment.Env (TutorialEnvironment.Profile 0.6 0.08 0.02) 0 0)
      [mkState 0.8 6 9 1] 0 false = Ok reward
    ∧ (- (5) <= reward)%Q ∧ (reward <= 10.5)%Q
    ∧ (false = true → (0 < reward)%Q)
    ∧ (false = false → (reward < 0)%Q).
Proof.
  apply reward_bounds. lia.
Defined.

Lemma select_action_epsilon_greedy_witness :
  let ag := QLearningAgent.Agent 4 0.1 0.95 0.2 {[ "5_0_1" := [0; 1.5; 1.5; -(2)]%Q ]} in
  let h := [mkState 0.5 0 0 1] in
  let g := ([0.7; 0.6] : tape)%Q in
  ∃ a ag' g',
    QLearningAgent.select_action ag h g 0 = Ok (a, ag', g')
    ∧ (0 ≤ a < Z.of_nat (QLearningAgent.action_space ag))%Z
    ∧ (∀ k, q_values ag' k = q_values ag k)
    ∧ (Qltb (np_random g).1 (QLearningAgent.epsilon ag) = true → ag' = ag)
    ∧ (Qltb (np_random g).1 (QLearningAgent.epsilon ag) = false →
       ∃ v, q_values ag (to_key (deref h 0)) !! Z.to_nat a = Some v
            ∧ ∀ j w, q_values ag (to_key (deref h 0)) !! j = Some w → (w <= v)%Q).
Proof.
  intros ag h g. apply (select_action_epsilon_greedy (G := tape) ag h g 0).
  - apply map_Forall_singleton. reflexivity.
  - simpl. lia.
Defined.

Lemma thompson_select_first_maximum_witness :
  let ag := ThompsonSamplingAgent.default in
  let g := ([0.3; 0.8; 0.8; 0.1] : tape)%Q in
  ∃ a g' v,
    ThompsonSamplingAgent.select_action ag g = Ok (a, g')
    ∧ g' = (np_beta (ThompsonSamplingAgent.alpha ag) (ThompsonSamplingAgent.beta ag) g).2
    ∧ (0 ≤ a < Z.of_nat (length (ThompsonSamplingAgent.alpha ag)))%Z
    ∧ let samples :=
        (np_beta (ThompsonSamplingAgent.alpha ag) (ThompsonSamplingAgent.beta ag) g).1 in
      samples !! Z.to_nat a = Some v
      ∧ (∀ j w, samples !! j = Some w → (w <= v)%Q)
      ∧ (∀ j w, j < Z.to_nat a → samples !! j = Some w → (w < v)%Q).
Proof.
  intros ag g. apply (thompson_select_first_maximum (G := tape) ag g). discriminate.
Defined.

Lemma thompson_counters_grow_witness :
  let ag := ThompsonSamplingAgent.default in
  ∃ ag',
    ThompsonSamplingAgent.update ag 3 (-(1)) = Ok ag'
    ∧ Forall (λ x, (1 <= x)%Q) (ThompsonSamplingAgent.alpha ag')
    ∧ Forall (λ x, (1 <= x)%Q) (ThompsonSamplingAgent.beta ag')
    ∧ length (ThompsonSamplingAgent.alpha ag') = length (ThompsonSamplingAgent.alpha ag)
    ∧ length (ThompsonSamplingAgent.beta ag') = length (ThompsonSamplingAgent.beta ag)
    ∧ (py_sum (ThompsonSamplingAgent.alpha ag') + py_sum (ThompsonSamplingAgent.beta ag')
       == py_sum (ThompsonSamplingAgent.alpha ag) + py_sum (ThompsonSamplingAgent.beta ag) + 1)%Q.
Proof.
  intros ag. apply (thompson_counters_grow ag 3 (-(1))); simpl; try lia;
    repeat constructor; unfold Qle; simpl; lia.
Defined.

Lemma hybrid_update_forwards_to_both_witness :
  let ag := HybridAgent.default in
  let h := [mkState 0.58 1 1 2] in
  ∃ q' th',
    QLearningAgent.update (HybridAgent.q_agent ag) h 0 2 6 0 false = Ok q'
    ∧ ThompsonSamplingAgent.update (HybridAgent.thompson_agent ag) 2 6 = Ok th'
    ∧ HybridAgent.update ag h 0 2 6 0 false
      = Ok (HybridAgent.Agent q' th' (HybridAgent.exploration_rate ag)
              (HybridAgent.action_space ag))
    ∧ to_key (deref h 0) ∈ dom (QLearningAgent.q_table q')
    ∧ (py_sum (ThompsonSamplingAgent.alpha th') + py_sum (ThompsonSamplingAgent.beta th')
       == py_sum (ThompsonSamplingAgent.alpha (HybridAgent.thompson_agent ag))
          + py_sum (ThompsonSamplingAgent.beta (HybridAgent.thompson_agent ag)) + 1)%Q.
Proof.
  intros ag h. apply (hybrid_update_forwards_to_both ag h 0 2 6 0 false).
  - split; [apply map_Forall_empty | reflexivity].
  - split; reflexivity.
  - lia.
Defined.

Lemma key_buckets_range_witness :
  (0 ≤ py_int (performance (mkState 0.58 7 3 2) * 10) ≤ 10)%Z
  ∧ (0 ≤ Z.min (streak (mkState 0.58 7 3 2)) 5 ≤ 5)%Z.
Proof.
  apply key_buckets_range; simpl; try lia; unfold Qle; simpl; lia.
Defined.

Lemma report_statistics_witness :
  let r := ExperimentRunner.Runner "thompson"
             (TutorialEnvironment.Env (TutorialEnvironment.Profile 0.6 0.08 0.02) 0 0)
             (ExperimentRunner.Thompson ThompsonSamplingAgent.default)
             (ExperimentRunner.Metrics [12; -(3); 40.5]%Q [0.5; 0.2; 0.9]%Q [10; 20; 30; 0]%Q
                [0.7; 0.3; 1]%Q [] None [0; 0; 0]%Z) in
  ∃ rep,
    ExperimentRunner._generate_report (λ x, x) r 1 = Ok rep
    ∧ ExperimentRunner.max_reward rep ∈ ExperimentRunner.episode_rewards (ExperimentRunner.metrics r)
    ∧ ExperimentRunner.min_reward rep ∈ ExperimentRunner.episode_rewards (ExperimentRunner.metrics r)
    ∧ ExperimentRunner.total_episodes rep = 3%Z.
Proof.
  intros r. destruct (report_statistics (λ x, x) r 1) as (rep & E & Mx & Mn & _ & Te & _).
  - discriminate.
  - exists rep. split; [exact E|]. split; [exact Mx|]. split; [exact Mn | exact Te].
Defined.

Lemma get_user_choice_first_valid_witness :
  let int := λ s : string,
    if bool_decide (s = "2") then Some 2%Z
    else if bool_decide (s = "7") then Some 7%Z else None in
  (0 ≤ 1 < Z.of_nat (length Main.algorithms))%Z
  ∧ ∃ skipped line,
      ["seven"; "7"; "2"; "40"] = skipped ++ line :: ["40"]
      ∧ int line = Some (1 + 1)%Z
      ∧ Forall (λ l, ∀ choice, int l = Some choice →
                     ¬ (1 ≤ choice ≤ Z.of_nat (length Main.algorithms))%Z) skipped.
Proof.
  intros int.
  apply (get_user_choice_first_valid int Main.algorithms ["seven"; "7"; "2"; "40"] 1 ["40"]).
  reflexivity.
Defined.

Lemma episode_runs_twenty_steps_witness :
  let r := ExperimentRunner.Runner "thompson"
             (TutorialEnvironment.Env (TutorialEnvironment.Profile 0.6 0.08 0.02) 0 0)
             (ExperimentRunner.Thompson ThompsonSamplingAgent.default)
             (ExperimentRunner.Metrics [] [] (np_zeros 4) [] [] None []) in
  let h := [mkState 0.5 0 0 1] in
  let g := ([0.4; 0.9; 0.1] : tape)%Q in
  ∃ r' h' g' reward calls front last,
    ExperimentRunner.run_episode_calls 20 r h g 0 = Ok (r', h', g', reward, calls)
    ∧ ExperimentRunner.run_episode 20 r h g 0 = Ok (r', h', g', reward)
    ∧ length calls = 20
    ∧ calls = front ++ [last]
    ∧ Forall (λ c, ExperimentRunner.call_done c = false) front
    ∧ ExperimentRunner.call_done last = true
    ∧ Forall (λ c, (0 ≤ ExperimentRunner.call_action c < 4)%Z) calls
    ∧ questions_answered (deref h' (TutorialEnvironment.state (ExperimentRunner.env r'))) = 20%Z
    ∧ ExperimentRunner.difficulty_history (ExperimentRunner.metrics r')
      = ExperimentRunner.difficulty_history (ExperimentRunner.metrics r)
        ++ [ExperimentRunner.call_action <$> calls]
    ∧ ExperimentRunner.performance_history (ExperimentRunner.metrics r')
      = ExperimentRunner.performance_history (ExperimentRunner.metrics r)
        ++ [performance (deref h' (TutorialEnvironment.state (ExperimentRunner.env r')))]
    ∧ ExperimentRunner.q_table_sizes (ExperimentRunner.metrics r')
      = ExperimentRunner.q_table_sizes (ExperimentRunner.metrics r)
        ++ [ExperimentRunner.get_q_table_size (ExperimentRunner.agent r')]
    ∧ length (ExperimentRunner.success_rates (ExperimentRunner.metrics r'))
      = S (length (ExperimentRunner.success_rates (ExperimentRunner.metrics r)))
    ∧ ExperimentRunner.episode_rewards (ExperimentRunner.metrics r')
      = ExperimentRunner.episode_rewards (ExperimentRunner.metrics r).
Proof.
  intros r h g. apply (episode_runs_twenty_steps (G := tape) 20 r h g 0).
  - split; reflexivity.
  - reflexivity.
  - lia.
Defined.

Lemma episode_adds_twenty_to_action_distribution_witness :
  let r := ExperimentRunner.Runner "thompson"
             (TutorialEnvironment.Env (TutorialEnvironment.Profile 0.6 0.08 0.02) 0 0)
             (ExperimentRunner.Thompson ThompsonSamplingAgent.default)
             (ExperimentRunner.Metrics [] [] (np_zeros 4) [] [] None []) in
  ∃ r' h' g' reward,
    ExperimentRunner.run_episode 25 r [mkState 0.5 0 0 1] ([0.4; 0.9; 0.1] : tape)%Q 0
      = Ok (r', h', g', reward)
    ∧ length (ExperimentRunner.action_distribution (ExperimentRunner.metrics r')) = 4
    ∧ (py_sum (ExperimentRunner.action_distribution (ExperimentRunner.metrics r'))
       == py_sum (ExperimentRunner.action_distribution (ExperimentRunner.metrics r)) + 20)%Q.
Proof.
  intros r.
  apply (episode_adds_twenty_to_action_distribution (G := tape) 25 r).
  - split; reflexivity.
  - reflexivity.
  - lia.
Defined.

Lemma episode_success_rate_in_unit_interval_witness :
  let r := ExperimentRunner.Runner "thompson"
             (TutorialEnvironment.Env (TutorialEnvironment.Profile 0.4 0.04 0.03) 0 0)
             (ExperimentRunner.Thompson ThompsonSamplingAgent.default)
             (ExperimentRunner.Metrics [] [] (np_zeros 4) [] [] None []) in
  ∃ r' h' g' reward rate,
    ExperimentRunner.run_episode 20 r [mkState 0.5 0 0 1] ([0.4; 0.9; 0.1] : tape)%Q 0
      = Ok (r', h', g', reward)
    ∧ ExperimentRunner.success_rates (ExperimentRunner.metrics r')
      = ExperimentRunner.success_rates (ExperimentRunner.metrics r) ++ [rate]
    ∧ (0 <= rate)%Q ∧ (rate <= 1)%Q.
Proof.
  intros r.
  apply (episode_success_rate_in_unit_interval (G := tape) 20 r).
  - split; reflexivity.
  - reflexivity.
  - lia.
Defined.

Lemma convergence_is_first_stable_episode_witness :
  let r := ExperimentRunner.Runner "thompson"
             (TutorialEnvironment.Env (TutorialEnvironment.Profile 0.8 0.15 0.01) 0 0)
             (ExperimentRunner.Thompson ThompsonSamplingAgent.default)
             (ExperimentRunner.Metrics [] [] (np_zeros 4) [] [] None []) in
  ∃ r' h' g' rep,
    ExperimentRunner.run_experiment (λ x, x) 20 r [mkState 0.5 0 0 1] ([] : tape) 22 1
      = Ok (r', h', g', rep)
    ∧ length (ExperimentRunner.episode_rewards (ExperimentRunner.metrics r')) = Z.to_nat 22
    ∧ match ExperimentRunner.report_convergence_episode rep with
      | Some e =>
          (19 ≤ e < 22)%Z
          ∧ converged_on (take (S (Z.to_nat e))
                            (ExperimentRunner.episode_rewards (ExperimentRunner.metrics r')))
          ∧ ∀ i, i < Z.to_nat e →
                 ¬ converged_on (take (S i)
                      (ExperimentRunner.episode_rewards (ExperimentRunner.metrics r')))
      | None =>
          ∀ i, i < Z.to_nat 22 →
               ¬ converged_on (take (S i)
                    (ExperimentRunner.episode_rewards (ExperimentRunner.metrics r')))
      end.
Proof.
  intros r.
  apply (convergence_is_first_stable_episode (G := tape) (λ x, x) 20 r).
  - split; reflexivity.
  - reflexivity.
  - reflexivity.
  - reflexivity.
  - lia.
  - lia.
Defined.

Lemma main_configuration_valid_witness :
  let int := λ s : string,
    if bool_decide (s = "3") then Some 3%Z
    else if bool_decide (s = "1") then Some 1%Z
    else if bool_decide (s = "5") then Some 5%Z
    else if bool_decide (s = "50") then Some 50%Z else None in
  ("hybrid" : string) ∈ ["qlearning"; "thompson"; "hybrid"]
  ∧ ("fast" : string) ∈ ["fast"; "average"; "slow"]
  ∧ (10 ≤ 50 ≤ 500)%Z
  ∧ ∀ (h : heap) (g : tape) (fuel : nat) (time : Q), 20 ≤ fuel →
      ∃ r h0 r' h' g' rep,
        ExperimentRunner.__init__ "hybrid" "fast" h = Ok (r, h0)
        ∧ match ExperimentRunner.agent r with
          | ExperimentRunner.QLearning _ => ("hybrid" : string) = "qlearning"
          | ExperimentRunner.Thompson _ => ("hybrid" : string) = "thompson"
          | ExperimentRunner.Hybrid _ => ("hybrid" : string) = "hybrid"
          end
        ∧ ExperimentRunner.run_experiment (λ x, x) fuel r h0 g 50 time = Ok (r', h', g', rep)
        ∧ ExperimentRunner.total_episodes rep = 50%Z.
Proof.
  intros int.
  apply (main_configuration_valid (G := tape) int (λ x, x)
           ["x"; "3"; "1"; "5"; "many"; "50"; ""; "2"] ["2"] "hybrid" "fast" 50).
  reflexivity.
Defined.

(** * The convergence test at its threshold *)

(** Rounding decides the test when the two means are exactly 0.5 apart.
    For these twenty rewards the windows have means 0.2 and 0.7; in
    binary64 their difference is 0.5 - 2^-54, the test holds and the runner
    records convergence, where exact arithmetic would find 0.5 < 0.5
    false. *)
Lemma convergence_test_at_threshold :
  let rewards := [1; 1; 0; 0; 0; 0; 0; 0; 0; 0; 1; 1; 1; 1; 1; 1; 1; 0; 0; 0]%Q in
  let r := ExperimentRunner.Runner "thompson"
             (TutorialEnvironment.Env (TutorialEnvironment.Profile 0.6 0.08 0.02) 0 0)
             (ExperimentRunner.Thompson ThompsonSamplingAgent.default)
             (ExperimentRunner.Metrics rewards [] (np_zeros 4) [] [] None []) in
  (Qabs (mean (drop 10 rewards) - mean (take 10 rewards)) == 0.5)%Q
  ∧ sub64 (np_mean64 (drop 10 rewards)) (np_mean64 (take 10 rewards))
    = Fin (9007199254740991 # 18014398509481984)
  ∧ converged_on rewards
  ∧ ExperimentRunner._check_convergence r 10 0.5 = true
  ∧ ExperimentRunner._check_convergence
      (H := {| np_mean64 := np_mean; sub64 := np_sub |}) r 10 0.5 = false.
Proof.
  intros rewards r. split; [vm_compute; reflexivity|]. split; [vm_compute; reflexivity|].
  split; [split; [simpl; lia | vm_compute; reflexivity]|].
  split; vm_compute; reflexivity.
Qed.
